(** * build_mj_inputs: extraction of Modified-Jones inputs from EDINET filings

    A shallow embedding of [scripts/build_mj_inputs.py] and the properties of
    its value normalizer, fact resolver, receivables synthesis, filing
    selection and per-company driver.

    Conventions of the embedding.
    - A Python [str] is a [string] holding its UTF-8 bytes.  Equality,
      concatenation, substring search and lexicographic comparison of UTF-8
      byte strings coincide with the same operations on code points; slicing
      by one code point is written as dropping the bytes of that code point.
    - A Python [float] is a binary64 primitive float.
    - [Optional[T]] is [option T]; [None] is [None].
    - The builtin [float(s)] is a parameter [py_float] of the development:
      [None] stands for [ValueError]. *)

From Stdlib Require Import String Ascii List ZArith Floats Lia Bool.
From Stdlib Require Import Permutation Sorted OrdersEx.
From stdpp Require Import gmap.
Import ListNotations.
Open Scope string_scope.

(** ** Python string operations *)

Module PyStr.

(** One-byte members of [str.isspace]: U+0009..U+000D, U+001C..U+0020. *)
Definition ascii_space (c : ascii) : bool :=
  let n := nat_of_ascii c in
  ((9 <=? n) && (n <=? 13) || (28 <=? n) && (n <=? 32))%nat.

(** Two-byte members: U+0085 and U+00A0, lead byte C2. *)
Definition space2 (c2 : ascii) : bool :=
  let n := nat_of_ascii c2 in ((n =? 133) || (n =? 160))%nat.

(** Three-byte members: U+1680 (E1 9A 80), U+2000..U+200A, U+2028, U+2029,
    U+202F (E2 80 xx), U+205F (E2 81 9F), U+3000 (E3 80 80). *)
Definition space3 (c1 c2 c3 : ascii) : bool :=
  let n1 := nat_of_ascii c1 in
  let n2 := nat_of_ascii c2 in
  let n3 := nat_of_ascii c3 in
  ((n1 =? 225) && (n2 =? 154) && (n3 =? 128)
   || (n1 =? 226) && (n2 =? 128)
      && ((128 <=? n3) && (n3 <=? 138) || (n3 =? 168) || (n3 =? 169) || (n3 =? 175))
   || (n1 =? 226) && (n2 =? 129) && (n3 =? 159)
   || (n1 =? 227) && (n2 =? 128) && (n3 =? 128))%nat.

Definition lead2 (c : ascii) : bool := (nat_of_ascii c =? 194)%nat.
Definition lead3 (c : ascii) : bool :=
  let n := nat_of_ascii c in ((225 <=? n) && (n <=? 227))%nat.

(** [s.lstrip()] *)
Fixpoint lstrip (s : string) : string :=
  match s with
  | EmptyString => s
  | String c1 r1 =>
    if ascii_space c1 then lstrip r1
    else if lead2 c1 then
      match r1 with
      | String c2 r2 => if space2 c2 then lstrip r2 else s
      | EmptyString => s
      end
    else if lead3 c1 then
      match r1 with
      | String c2 (String c3 r3) => if space3 c1 c2 c3 then lstrip r3 else s
      | _ => s
      end
    else s
  end.

Definition all_space (s : string) : bool :=
  match lstrip s with EmptyString => true | _ => false end.

(** [s.rstrip()]: the longest suffix made of whitespace is cut.  A suffix that
    starts inside a multi-byte character starts with a continuation byte and
    is never whitespace. *)
Fixpoint rstrip (s : string) : string :=
  match s with
  | EmptyString => EmptyString
  | String c r => if all_space s then EmptyString else String c (rstrip r)
  end.

(** [s.strip()] *)
Definition strip (s : string) : string := rstrip (lstrip s).

(** [s.replace(",", "")] *)
Fixpoint remove_commas (s : string) : string :=
  match s with
  | EmptyString => EmptyString
  | String c r => if Ascii.eqb c "," then remove_commas r else String c (remove_commas r)
  end.

(** [s.startswith(p)] *)
Fixpoint startswith (p s : string) : bool :=
  match p with
  | EmptyString => true
  | String a p' =>
    match s with
    | EmptyString => false
    | String b s' => Ascii.eqb a b && startswith p' s'
    end
  end.

(** [s.endswith(p)] *)
Fixpoint endswith (p s : string) : bool :=
  String.eqb s p ||
  match s with
  | EmptyString => false
  | String _ r => endswith p r
  end.

(** [p in s] *)
Fixpoint contains (p s : string) : bool :=
  startswith p s ||
  match s with
  | EmptyString => false
  | String _ r => contains p r
  end.

(** [s[n:]] for a byte count [n] *)
Fixpoint drop (n : nat) (s : string) : string :=
  match n, s with
  | O, _ => s
  | S _, EmptyString => EmptyString
  | S k, String _ r => drop k r
  end.

(** [s[:-1]] when the last character is one byte long *)
Fixpoint drop_last (s : string) : string :=
  match s with
  | EmptyString => EmptyString
  | String c EmptyString => EmptyString
  | String c r => String c (drop_last r)
  end.

(** [x in (a, b, ...)] for strings *)
Definition in_tuple (x : string) (t : list string) : bool :=
  existsb (String.eqb x) t.

(** [a or b] on an optional string: [None] and [""] are falsy. *)
Definition or_str (a : option string) (b : string) : string :=
  match a with
  | Some s => if String.eqb s "" then b else s
  | None => b
  end.

End PyStr.

Import PyStr.

(** ** Configuration constants *)

Definition FISCAL_YEAR_MIN : Z := 2015.
Definition FISCAL_YEAR_MAX : Z := 2024.

(** [UNIT_MAP]: unit label to yen multiplier. *)
Definition UNIT_MAP : list (string * float) :=
  [ ("円", 1%float);
    ("千円", 1000%float);
    ("百万円", 1000000%float);
    ("億円", 100000000%float);
    ("JPY", 1%float) ].

Definition ELEMENT_NET_SALES : list string :=
  [ "NetSales"; "NetSalesOfCompletedConstructionContracts" ].
Definition ELEMENT_PROFIT_LOSS : list string :=
  [ "ProfitLoss"; "ProfitLossAttributableToOwnersOfParent" ].
Definition ELEMENT_OPERATING_CF : list string :=
  [ "NetCashProvidedByUsedInOperatingActivities" ].
Definition ELEMENT_ASSETS : list string := [ "Assets" ].
Definition ELEMENT_REC_BASE : list string :=
  [ "NotesAndAccountsReceivableTrade";
    "NotesAndAccountsReceivableTradeAndContractAssets";
    "ReceivablesTradeAndContractAssets";
    "AccountsReceivableTrade";
    "TradeAndOtherReceivables";
    "NotesReceivableTrade";
    "AccountsReceivableOther";
    "AccountsReceivableFromCompletedConstructionContracts";
    "NotesReceivableAccountsReceivableFromCompletedConstructionContractsAndOtherCNS" ].
Definition ELEMENT_ECLAIMS : list string :=
  [ "ElectronicallyRecordedMonetaryClaimsOperatingCA";
    "ElectronicallyRecordedMonetaryClaimsOperating" ].
Definition ELEMENT_PPE : list string :=
  [ "PropertyPlantAndEquipment"; "PropertyPlantAndEquipmentNet" ].

(** The relative-period, period-kind and scope labels of the filing table. *)
Definition CUR : string := "当期".
Definition PRIOR : string := "前期".
Definition CUR_END : string := "当期末".
Definition PRIOR_END : string := "前期末".
Definition DURATION : string := "期間".
Definition INSTANT : string := "時点".
Definition CONSOLIDATED : string := "連結".
Definition NON_CONSOLIDATED : string := "個別".
Definition JPPFS : string := "jppfs_cor:".

(** ** Data classes *)

(** One row of a loaded filing table (all columns are read as text).  Every
    fact carries its element id, relative period, period kind and scope; the
    context, value and unit cells may be null ([None]): an empty cell is
    loaded as null. *)
Record Row := mkRow {
  elem_id : string;        (* 要素ID *)
  context_id : option string;  (* コンテキストID *)
  relative_year : string;  (* 相対年度 *)
  cons_type : string;      (* 連結・個別 *)
  period_type : string;    (* 期間・時点 *)
  unit : option string;    (* 単位 *)
  value : option string    (* 値 *)
}.

Definition DataFrame := list Row.

Record TSVMetadata := mkMeta {
  tsv_path : string;
  meta_edinet_code : string;
  accounting_standard : option string;
  meta_fiscal_year : option Z;
  fiscal_year_start : option string;
  fiscal_year_end : option string;
  submit_datetime : option string;
  meta_doc_id : option string;
  has_ifrs_us_gaap : bool
}.

Record CompanyInfo := mkCompany {
  ci_edinet_code : string;
  ci_sec_code : option string;
  ci_company_name : option string;
  ci_industry : option string;
  ci_market : option string
}.

Record MJInput := mkMJ {
  edinet_code : string;
  sec_code : option string;
  company_name : option string;
  industry : option string;
  market : option string;
  fiscal_year : option Z;
  period_end : option string;
  mj_submit_datetime : option string;
  doc_id : option string;
  mj_tsv_path : option string;
  is_consolidated : option bool;
  assets_prev_end : option float;
  rev_t : option float;
  rev_t1 : option float;
  ar_end_t : option float;
  ar_end_t1 : option float;
  ar_end_t_no_e : option float;
  ar_end_t1_no_e : option float;
  eclaims_end_t : option float;
  eclaims_end_t1 : option float;
  rec_rule : option string;
  rec_used_base_eid : option string;
  rec_used_eclaims_eid : option string;
  ppe_end_t : option float;
  ni_t : option float;
  cfo_t : option float;
  ta_t : option float;
  d_rev : option float;
  d_ar : option float
}.

Record MissingLog := mkMissing {
  ml_edinet_code : string;
  ml_fiscal_year : option Z;
  ml_tsv_path : string;
  missing_reason : string
}.

Record DuplicateLog := mkDup {
  dl_edinet_code : string;
  dl_fiscal_year : Z;
  chosen_tsv : string;
  chosen_submit_datetime : option string;
  skipped_tsv : string;
  skipped_reason : string
}.

Record RecDebugLog := mkRecDebug {
  rd_edinet_code : string;
  rd_fiscal_year : option Z;
  rd_tsv_path : string;
  rd_is_consolidated : option bool;
  rd_rec_rule : option string;
  rec_base_end_t : option float;
  rec_base_end_t1 : option float;
  rec_eclaims_end_t : option float;
  rec_eclaims_end_t1 : option float;
  rec_plus_e_end_t : option float;
  rec_plus_e_end_t1 : option float;
  rec_used_base_eid_end_t : option string;
  rec_used_base_eid_end_t1 : option string;
  rec_used_eclaims_eid_end_t : option string;
  rec_used_eclaims_eid_end_t1 : option string
}.

(** [d.get(k)] on a literal table *)
Fixpoint dict_get {V : Type} (d : list (string * V)) (k : string) : option V :=
  match d with
  | [] => None
  | (k', v) :: rest => if String.eqb k' k then Some v else dict_get rest k
  end.

(** [UNIT_MAP.get(unit, 1)]; a null unit is no key of the table. *)
Definition unit_multiplier (u : option string) : float :=
  match u with
  | Some k => match dict_get UNIT_MAP k with Some f => f | None => 1%float end
  | None => 1%float
  end.

(** The texts that stand for a missing value. *)
Definition MISSING_PATTERNS : list string :=
  [ ""; "－"; "-"; "―"; "ー"; "−"; "nan"; "None" ].

Definition NEG_GLYPH_1 : string := "△".
Definition NEG_GLYPH_2 : string := "▲".

(** The outcome of a call that may raise: [Raised e] carries the message. *)
Inductive outcome (A : Type) : Type :=
| Returned (a : A)
| Raised (e : string).
Arguments Returned {A} a.
Arguments Raised {A} e.

(** Two floats are the same number when they compare equal or are both NaN
    (the two zeros are the same number). *)
Definition same_number (x y : float) : Prop :=
  (x =? y)%float = true \/ (is_nan x = true /\ is_nan y = true).

Section Engine.

(** The builtin [float]: [None] is [ValueError]. *)
Variable py_float : string -> option float.

(** ** Value normalizer *)

Definition normalize_value (value_str : option string) (u : option string)
  : option float :=
  match value_str with
  | None => None
  | Some v =>
    let s := strip v in
    if in_tuple s MISSING_PATTERNS then None
    else
      let s := remove_commas s in
      let '(is_negative, s) :=
        if startswith "(" s && endswith ")" s then (true, drop_last (drop 1 s))
        else if startswith NEG_GLYPH_1 s || startswith NEG_GLYPH_2 s
             then (true, drop (String.length NEG_GLYPH_1) s)
             else (false, s) in
      match py_float s with
      | None => None
      | Some x =>
        let x := if is_negative then (- x)%float else x in
        Some (x * unit_multiplier u)%float
      end
  end.

(** ** Fact resolver *)

(** The four-column match of one candidate tag. *)
Definition matches (full_elem_id relative_year' period_type' consolidated : string)
  (r : Row) : bool :=
  String.eqb (elem_id r) full_elem_id
  && String.eqb (relative_year r) relative_year'
  && String.eqb (period_type r) period_type'
  && String.eqb (cons_type r) consolidated.

(** Column expressions on a cell that may be null: [str.contains] of a null
    cell is null, [~] of null is null, and [&] is null unless one side is
    false or both are true. *)
Definition str_contains (pat : string) (cell : option string) : option bool :=
  option_map (contains pat) cell.

Definition kleene_not (a : option bool) : option bool := option_map negb a.

Definition kleene_and (a b : option bool) : option bool :=
  match a, b with
  | Some false, _ | _, Some false => Some false
  | Some true, Some true => Some true
  | _, _ => None
  end.

(** [filter] keeps the rows whose predicate is true: a row whose predicate is
    false or null goes. *)
Definition kept (p : option bool) : bool :=
  match p with
  | Some true => true
  | _ => false
  end.

(** The segment filter: a row is kept when the negation of "its context has
    [Member] and has neither [NonConsolidatedMember] nor
    [ConsolidatedMember]" is true.  On a null context the expression is null,
    so the row is dropped. *)
Definition not_segment (r : Row) : bool :=
  kept (kleene_not
          (kleene_and
             (kleene_and (str_contains "Member" (context_id r))
                         (kleene_not (str_contains "NonConsolidatedMember" (context_id r))))
             (kleene_not (str_contains "ConsolidatedMember" (context_id r))))).

(** The same filter as the pandas variants write it: [na=False] makes each
    of the three masks false on a null context, so the row is kept. *)
Definition na_false (a : option bool) : bool :=
  match a with
  | Some b => b
  | None => false
  end.

Definition not_segment_pandas (r : Row) : bool :=
  negb (na_false (str_contains "Member" (context_id r))
        && negb (na_false (str_contains "NonConsolidatedMember" (context_id r)))
        && negb (na_false (str_contains "ConsolidatedMember" (context_id r)))).

(** [max(values)] on a non-empty list: the first value is kept until a later
    one compares greater. *)
Definition py_max (x : float) (xs : list float) : float :=
  fold_left (fun m v => if (m <? v)%float then v else m) xs x.

(** The values of the surviving rows that normalize. *)
Fixpoint normalized_values (rs : list Row) : list float :=
  match rs with
  | [] => []
  | r :: rest =>
    match normalize_value (value r) (unit r) with
    | Some v => v :: normalized_values rest
    | None => normalized_values rest
    end
  end.

Fixpoint _extract_value_polars (df : DataFrame) (element_ids : list string)
  (relative_year' period_type' consolidated prefix : string) : option float :=
  match element_ids with
  | [] => None
  | elem :: rest =>
    let full_elem_id := prefix ++ elem in
    let filtered :=
      List.filter (matches full_elem_id relative_year' period_type' consolidated) df in
    let filtered := List.filter not_segment filtered in
    if (length filtered =? 0)%nat
    then _extract_value_polars df rest relative_year' period_type' consolidated prefix
    else
      match normalized_values filtered with
      | v :: vs => Some (py_max v vs)
      | [] => _extract_value_polars df rest relative_year' period_type' consolidated prefix
      end
  end.

Fixpoint _extract_value_polars_with_eid (df : DataFrame) (element_ids : list string)
  (relative_year' period_type' consolidated prefix : string)
  : option float * option string :=
  match element_ids with
  | [] => (None, None)
  | elem :: rest =>
    let full_elem_id := prefix ++ elem in
    let filtered :=
      List.filter (matches full_elem_id relative_year' period_type' consolidated) df in
    let filtered := List.filter not_segment filtered in
    if (length filtered =? 0)%nat
    then _extract_value_polars_with_eid df rest relative_year' period_type' consolidated prefix
    else
      match normalized_values filtered with
      | v :: vs => (Some (py_max v vs), Some elem)
      | [] => _extract_value_polars_with_eid df rest relative_year' period_type' consolidated prefix
      end
  end.

Definition extract_value_with_fallback (df : DataFrame) (element_ids : list string)
  (relative_year' period_type' consolidated : string) : option float :=
  _extract_value_polars df element_ids relative_year' period_type' consolidated JPPFS.

Definition extract_value_with_fallback_and_eid (df : DataFrame)
  (element_ids : list string) (relative_year' period_type' consolidated : string)
  : option float * option string :=
  _extract_value_polars_with_eid df element_ids relative_year' period_type'
    consolidated JPPFS.

(** A value is usable for a tag when some row of the table matches the tag,
    the period, the period kind and the scope, passes the segment filter (its
    context is not null and has no "Member", or has one of the two scope
    members), and normalizes to that value. *)
Definition usable (df : DataFrame) (full_elem_id relative_year' period_type'
  consolidated : string) (v : float) : Prop :=
  exists r, In r df
    /\ elem_id r = full_elem_id
    /\ relative_year r = relative_year'
    /\ period_type r = period_type'
    /\ cons_type r = consolidated
    /\ (exists c, context_id r = Some c
                  /\ (contains "Member" c = true ->
                      contains "NonConsolidatedMember" c = true
                      \/ contains "ConsolidatedMember" c = true))
    /\ normalize_value (value r) (unit r) = Some v.

(** ** Scope selection *)

Definition check_has_consolidated_data (df : DataFrame) (element_ids : list string)
  : bool :=
  let consolidated_rows := List.filter (fun r => String.eqb (cons_type r) CONSOLIDATED) df in
  if (length consolidated_rows =? 0)%nat then false
  else
    existsb (fun elem =>
      let full_elem_id := JPPFS ++ elem in
      let matched :=
        List.filter (fun r => String.eqb (elem_id r) full_elem_id
                         && String.eqb (relative_year r) CUR) consolidated_rows in
      (0 <? length matched)%nat) element_ids.

(** ** Company-year extractor *)

(** [add_eclaims]: the receivables base plus the electronic claims;
    [eclaims or 0] is [0] when the claims are [None] or compare equal to zero. *)
Definition add_eclaims (base eclaims : option float) : option float :=
  match base with
  | None => None
  | Some b =>
    let e := match eclaims with
             | Some c => if (c =? 0)%float then 0%float else c
             | None => 0%float
             end in
    Some (b + e)%float
  end.

(** [reasons.append(text)] when the field is [None] *)
Definition note_missing {A : Type} (field : option A) (text : string)
  (reasons : list string) : list string :=
  match field with
  | None => (reasons ++ [text])%list
  | Some _ => reasons
  end.

Definition is_some {A : Type} (o : option A) : bool :=
  match o with Some _ => true | None => false end.

(** The record and the reasons computed from a loaded table. *)
Definition extract_from_df (df : DataFrame) (path : string) (meta : TSVMetadata)
  (company_info : CompanyInfo) : MJInput * list string * RecDebugLog :=
  let missing_reasons : list string := [] in
  let has_consolidated := check_has_consolidated_data df ELEMENT_NET_SALES in
  let consolidated_type := if has_consolidated then CONSOLIDATED else NON_CONSOLIDATED in
  let is_consolidated' := has_consolidated in
  let rev_t' := extract_value_with_fallback df ELEMENT_NET_SALES CUR DURATION consolidated_type in
  let missing_reasons :=
    note_missing rev_t' ("rev_t (NetSales 当期 " ++ consolidated_type ++ ")") missing_reasons in
  let rev_t1' := extract_value_with_fallback df ELEMENT_NET_SALES PRIOR DURATION consolidated_type in
  let missing_reasons :=
    note_missing rev_t1' ("rev_t1 (NetSales 前期 " ++ consolidated_type ++ ")") missing_reasons in
  let ni_t' := extract_value_with_fallback df ELEMENT_PROFIT_LOSS CUR DURATION consolidated_type in
  let missing_reasons :=
    note_missing ni_t' ("ni_t (ProfitLoss 当期 " ++ consolidated_type ++ ")") missing_reasons in
  let cfo_t' := extract_value_with_fallback df ELEMENT_OPERATING_CF CUR DURATION consolidated_type in
  let missing_reasons :=
    note_missing cfo_t' ("cfo_t (OperatingCF 当期 " ++ consolidated_type ++ ")") missing_reasons in
  let assets_prev_end' :=
    extract_value_with_fallback df ELEMENT_ASSETS PRIOR_END INSTANT consolidated_type in
  let missing_reasons :=
    note_missing assets_prev_end'
      ("assets_prev_end (Assets 前期末 " ++ consolidated_type ++ ")") missing_reasons in
  let '(rec_base_t, rec_base_eid_t) :=
    extract_value_with_fallback_and_eid df ELEMENT_REC_BASE CUR_END INSTANT consolidated_type in
  let '(rec_eclaims_t, rec_eclaims_eid_t) :=
    extract_value_with_fallback_and_eid df ELEMENT_ECLAIMS CUR_END INSTANT consolidated_type in
  let '(rec_base_t1, rec_base_eid_t1) :=
    extract_value_with_fallback_and_eid df ELEMENT_REC_BASE PRIOR_END INSTANT consolidated_type in
  let '(rec_eclaims_t1, rec_eclaims_eid_t1) :=
    extract_value_with_fallback_and_eid df ELEMENT_ECLAIMS PRIOR_END INSTANT consolidated_type in
  let ar_end_t' := add_eclaims rec_base_t rec_eclaims_t in
  let ar_end_t1' := add_eclaims rec_base_t1 rec_eclaims_t1 in
  let rec_rule' := if is_some rec_base_t then "PLUS_E" else "NO_BASE" in
  let missing_reasons :=
    note_missing ar_end_t' ("ar_end_t (REC base 当期末 " ++ consolidated_type ++ ")")
      missing_reasons in
  let missing_reasons :=
    note_missing ar_end_t1' ("ar_end_t1 (REC base 前期末 " ++ consolidated_type ++ ")")
      missing_reasons in
  let ppe_end_t' := extract_value_with_fallback df ELEMENT_PPE CUR_END INSTANT consolidated_type in
  let missing_reasons :=
    note_missing ppe_end_t' ("ppe_end_t (PPE 当期末 " ++ consolidated_type ++ ")")
      missing_reasons in
  let ta_t' := match ni_t', cfo_t' with
               | Some n, Some c => Some (n - c)%float
               | _, _ => None
               end in
  let d_rev' := match rev_t', rev_t1' with
                | Some a, Some b => Some (a - b)%float
                | _, _ => None
                end in
  let d_ar' := match ar_end_t', ar_end_t1' with
               | Some a, Some b => Some (a - b)%float
               | _, _ => None
               end in
  let missing_reasons := note_missing ta_t' "ta_t (ni_t - cfo_t)" missing_reasons in
  let missing_reasons := note_missing d_rev' "d_rev (rev_t - rev_t1)" missing_reasons in
  let missing_reasons := note_missing d_ar' "d_ar (ar_end_t - ar_end_t1)" missing_reasons in
  let mj :=
    {| edinet_code := meta_edinet_code meta;
       sec_code := ci_sec_code company_info;
       company_name := ci_company_name company_info;
       industry := ci_industry company_info;
       market := ci_market company_info;
       fiscal_year := meta_fiscal_year meta;
       period_end := fiscal_year_end meta;
       mj_submit_datetime := submit_datetime meta;
       doc_id := meta_doc_id meta;
       mj_tsv_path := Some path;
       is_consolidated := Some is_consolidated';
       assets_prev_end := assets_prev_end';
       rev_t := rev_t';
       rev_t1 := rev_t1';
       ar_end_t := ar_end_t';
       ar_end_t1 := ar_end_t1';
       ar_end_t_no_e := rec_base_t;
       ar_end_t1_no_e := rec_base_t1;
       eclaims_end_t := rec_eclaims_t;
       eclaims_end_t1 := rec_eclaims_t1;
       rec_rule := Some rec_rule';
       rec_used_base_eid := Some (or_str rec_base_eid_t "");
       rec_used_eclaims_eid := Some (or_str rec_eclaims_eid_t "");
       ppe_end_t := ppe_end_t';
       ni_t := ni_t';
       cfo_t := cfo_t';
       ta_t := ta_t';
       d_rev := d_rev';
       d_ar := d_ar' |} in
  let rec_debug :=
    {| rd_edinet_code := meta_edinet_code meta;
       rd_fiscal_year := meta_fiscal_year meta;
       rd_tsv_path := path;
       rd_is_consolidated := Some is_consolidated';
       rd_rec_rule := rec_rule mj;
       rec_base_end_t := rec_base_t;
       rec_base_end_t1 := rec_base_t1;
       rec_eclaims_end_t := rec_eclaims_t;
       rec_eclaims_end_t1 := rec_eclaims_t1;
       rec_plus_e_end_t := ar_end_t mj;
       rec_plus_e_end_t1 := ar_end_t1 mj;
       rec_used_base_eid_end_t := Some (or_str rec_base_eid_t "");
       rec_used_base_eid_end_t1 := Some (or_str rec_base_eid_t1 "");
       rec_used_eclaims_eid_end_t := Some (or_str rec_eclaims_eid_t "");
       rec_used_eclaims_eid_end_t1 := Some (or_str rec_eclaims_eid_t1 "") |} in
  (mj, missing_reasons, rec_debug).

(** [extract_mj_data_from_tsv]: [loaded] is the outcome of [read_tsv(tsv_path)];
    a read error is reported as the only reason, with no record. *)
Definition extract_mj_data_from_tsv (loaded : outcome DataFrame) (path : string)
  (meta : TSVMetadata) (company_info : CompanyInfo)
  : option MJInput * list string * option RecDebugLog :=
  match loaded with
  | Raised e => (None, ["TSV read error: " ++ e], None)
  | Returned df =>
    let '(mj, missing_reasons, rec_debug) := extract_from_df df path meta company_info in
    (Some mj, missing_reasons, Some rec_debug)
  end.

(** ** Filing selector *)

(** Python compares strings by code point, which on UTF-8 bytes is the
    lexicographic order of the bytes. *)
Definition str_compare : string -> string -> comparison := String_as_OT.compare.

(** The sort key [(submit_datetime or "", str(tsv_path))]. *)
Definition sort_key (m : TSVMetadata) : string * string :=
  (or_str (submit_datetime m) "", tsv_path m).

(** Comparison of two key tuples: first components, then second ones. *)
Definition key_compare (k1 k2 : string * string) : comparison :=
  match str_compare (fst k1) (fst k2) with
  | Eq => str_compare (snd k1) (snd k2)
  | c => c
  end.

Definition key_ltb (k1 k2 : string * string) : bool :=
  match key_compare k1 k2 with Lt => true | _ => false end.

(** [list.sort(key=sort_key, reverse=True)]: the stable sort in descending
    order.  [x] comes from the left of the elements already placed, so it goes
    in front of the first one whose key is not greater than its own. *)
Fixpoint insert_desc (x : TSVMetadata) (l : list TSVMetadata) : list TSVMetadata :=
  match l with
  | [] => [x]
  | y :: ys =>
    if key_ltb (sort_key x) (sort_key y) then y :: insert_desc x ys
    else x :: y :: ys
  end.

Definition sort_desc (l : list TSVMetadata) : list TSVMetadata :=
  fold_right insert_desc [] l.

(** [Path.name]: the text after the last separator. *)
Fixpoint path_name (p : string) : string :=
  match p with
  | EmptyString => EmptyString
  | String _ r => if contains "/" p then path_name r else p
  end.

Definition SKIPPED_REASON : string :=
  "duplicate_skipped: newer submit_datetime or filename chosen".

(** The log entry of a filing [m] that lost to [chosen]. *)
Definition duplicate_entry (code : string) (fy : Z) (chosen m : TSVMetadata)
  : DuplicateLog :=
  {| dl_edinet_code := code;
     dl_fiscal_year := fy;
     chosen_tsv := path_name (tsv_path chosen);
     chosen_submit_datetime := submit_datetime chosen;
     skipped_tsv := path_name (tsv_path m);
     skipped_reason := SKIPPED_REASON |}.

Definition select_best_tsv (metas : list TSVMetadata) (code : string) (fy : Z)
  : option TSVMetadata * list DuplicateLog :=
  match metas with
  | [] => (None, [])
  | [m] => (Some m, [])
  | _ =>
    match sort_desc metas with
    | chosen :: rest => (Some chosen, map (duplicate_entry code fy chosen) rest)
    | [] => (None, [])
    end
  end.

(** The ascending order of the filings: by submission timestamp (a missing one
    counts as the empty text), then by path. *)
Definition key_le (k1 k2 : string * string) : Prop := key_compare k1 k2 <> Gt.

Definition submitted_before_or_with (a b : TSVMetadata) : Prop :=
  key_le (sort_key a) (sort_key b).

(** The head of a list is a latest filing of it. *)
Definition head_latest (l : list TSVMetadata) : Prop :=
  match l with
  | [] => True
  | c :: _ => forall m, In m l -> key_ltb (sort_key c) (sort_key m) = false
  end.

(** A filing has a timestamp when [submit_datetime] is a non-empty text. *)
Definition has_timestamp (m : TSVMetadata) : bool :=
  negb (String.eqb (or_str (submit_datetime m) "") "").

(** ** Corpus driver *)

(** What the driver reads from outside: the [*.tsv] paths of a company
    directory ([None]: no such directory), the metadata scan of a filing
    ([None]: unreadable), the load of a filing table, and an exception that
    escapes the extraction of a filing, if one does. *)
Record World := mkWorld {
  glob_tsv : string -> option (list string);
  read_tsv_dei_only : string -> option TSVMetadata;
  read_tsv : string -> outcome DataFrame;
  escaping : string -> option string
}.

Definition in_range (fy : Z) : bool :=
  (FISCAL_YEAR_MIN <=? fy)%Z && (fy <=? FISCAL_YEAR_MAX)%Z.

Definition scan_step (w : World)
  (st : list TSVMetadata * gmap Z string) (path : string)
  : list TSVMetadata * gmap Z string :=
  let '(metas, non_japan_gaap_by_year) := st in
  match read_tsv_dei_only w path with
  | None => st
  | Some meta =>
    match meta_fiscal_year meta with
    | None => st
    | Some fy =>
      if negb (in_range fy) then st
      else
        let acc_std := accounting_standard meta in
        let is_japan_gaap :=
          match acc_std with
          | None => true
          | Some a => contains "Japan GAAP" a
          end in
        if has_ifrs_us_gaap meta
        then (metas, <[fy := or_str acc_std "IFRS/US-GAAP"]> non_japan_gaap_by_year)
        else if negb is_japan_gaap
        then (metas, <[fy := or_str acc_std "Unknown"]> non_japan_gaap_by_year)
        else ((metas ++ [meta])%list, non_japan_gaap_by_year)
    end
  end.

Definition scan_tsvs_for_company (w : World) (code : string)
  : list TSVMetadata * gmap Z string :=
  match glob_tsv w code with
  | None => ([], ∅)
  | Some paths => fold_left (scan_step w) paths ([], ∅)
  end.

(** The four lists a company's run fills. *)
Record Locals := mkLocals {
  mj_inputs : list MJInput;
  missing_logs : list MissingLog;
  duplicate_logs : list DuplicateLog;
  rec_debug_logs : list RecDebugLog
}.

Definition no_locals : Locals := mkLocals [] [] [] [].

(** Grouping of the metadata by fiscal year. *)
Definition group_by_year (metas : list TSVMetadata)
  : gmap (option Z) (list TSVMetadata) :=
  fold_left (fun by_year m =>
               let fy := meta_fiscal_year m in
               <[fy := (default [] (by_year !! fy) ++ [m])%list]> by_year)
            metas ∅.

Definition year_range : list Z :=
  map (fun i => (FISCAL_YEAR_MIN + Z.of_nat i)%Z)
      (seq 0 (Z.to_nat (FISCAL_YEAR_MAX + 1 - FISCAL_YEAR_MIN))).

Definition log_missing (code : string) (fy : Z) (path reason : string) (st : Locals)
  : Locals :=
  mkLocals (mj_inputs st)
           (missing_logs st ++ [mkMissing code (Some fy) path reason])%list
           (duplicate_logs st) (rec_debug_logs st).

(** One turn of the year loop: the locals after it, or the locals at the point
    where an exception leaves the loop. *)
Definition process_year (w : World) (code : string) (company_info : CompanyInfo)
  (by_year : gmap (option Z) (list TSVMetadata)) (non_japan_gaap_by_year : gmap Z string)
  (st : Locals) (fy : Z) : Locals * option string :=
  let year_metas := default [] (by_year !! Some fy) in
  match year_metas with
  | [] =>
    let reason :=
      match non_japan_gaap_by_year !! fy with
      | Some std => "accounting_standard: " ++ std
      | None => "no_tsv_found_for_year"
      end in
    (log_missing code fy "" reason st, None)
  | _ =>
    let '(chosen_meta, dup_logs) := select_best_tsv year_metas code fy in
    let st := mkLocals (mj_inputs st) (missing_logs st)
                       (duplicate_logs st ++ dup_logs)%list (rec_debug_logs st) in
    match chosen_meta with
    | None => (st, None)
    | Some chosen =>
      match escaping w (tsv_path chosen) with
      | Some e => (st, Some e)
      | None =>
        let '(mj, missing_reasons, rec_debug) :=
          extract_mj_data_from_tsv (read_tsv w (tsv_path chosen)) (tsv_path chosen)
            chosen company_info in
        let st :=
          match rec_debug with
          | Some d => mkLocals (mj_inputs st) (missing_logs st) (duplicate_logs st)
                               (rec_debug_logs st ++ [d])%list
          | None => st
          end in
        match mj, missing_reasons with
        | None, [] => (st, None)
        | None, _ =>
          (log_missing code fy (tsv_path chosen) (String.concat "; " missing_reasons) st, None)
        | Some _, _ :: _ =>
          (log_missing code fy (tsv_path chosen) (String.concat "; " missing_reasons) st, None)
        | Some m, [] =>
          (mkLocals (mj_inputs st ++ [m])%list (missing_logs st) (duplicate_logs st)
                    (rec_debug_logs st), None)
        end
      end
    end
  end.

(** The year loop: it stops at the first exception. *)
Fixpoint run_years (step : Locals -> Z -> Locals * option string) (years : list Z)
  (st : Locals) : Locals * option string :=
  match years with
  | [] => (st, None)
  | fy :: rest =>
    match step st fy with
    | (st', None) => run_years step rest st'
    | (st', Some e) => (st', Some e)
    end
  end.

(** The locals of [process_company] when it returns or when an exception
    leaves it. *)
Definition process_company_locals (w : World) (code : string)
  (company_info : CompanyInfo) : Locals * option string :=
  let '(metas, non_japan_gaap_by_year) := scan_tsvs_for_company w code in
  let by_year := group_by_year metas in
  run_years (process_year w code company_info by_year non_japan_gaap_by_year)
            year_range no_locals.

(** [process_company]: the lists are handed over by the final [return] only. *)
Definition process_company (w : World) (code : string) (company_info : CompanyInfo)
  : outcome Locals :=
  match process_company_locals w code company_info with
  | (st, None) => Returned st
  | (_, Some e) => Raised e
  end.

(** The aggregation of [main]. *)
Record Aggregate := mkAggregate {
  all_mj_inputs : list MJInput;
  all_missing_logs : list MissingLog;
  all_duplicate_logs : list DuplicateLog;
  all_rec_debug_logs : list RecDebugLog;
  warnings : list string
}.

Definition no_results : Aggregate := mkAggregate [] [] [] [] [].

Definition process_one (w : World) (company_info : CompanyInfo) : outcome Locals :=
  process_company w (ci_edinet_code company_info) company_info.

(** The body of the loop over the completed futures. *)
Definition collect (w : World) (agg : Aggregate) (c : CompanyInfo) : Aggregate :=
  match process_one w c with
  | Returned st =>
    mkAggregate (all_mj_inputs agg ++ mj_inputs st)%list
                (all_missing_logs agg ++ missing_logs st)%list
                (all_duplicate_logs agg ++ duplicate_logs st)%list
                (all_rec_debug_logs agg ++ rec_debug_logs st)%list
                (warnings agg)
  | Raised e =>
    mkAggregate (all_mj_inputs agg) (all_missing_logs agg)
                (all_duplicate_logs agg) (all_rec_debug_logs agg)
                (warnings agg ++ [("Error processing " ++ ci_edinet_code c ++ ": " ++ e)%string])%list
  end.

(** The results [main] writes, for the companies in the order in which their
    futures complete. *)
Definition main (w : World) (completed : list CompanyInfo) : Aggregate :=
  fold_left (collect w) completed no_results.
(** ** Notions used to state the properties *)

(** The record, the reasons and the debug entry of one extraction. *)
Definition mj_of (x : MJInput * list string * RecDebugLog) : MJInput := fst (fst x).
Definition reasons_of (x : MJInput * list string * RecDebugLog) : list string :=
  snd (fst x).
Definition debug_of (x : MJInput * list string * RecDebugLog) : RecDebugLog := snd x.

(** The scope a filing is read in. *)
Definition scope_of (df : DataFrame) : string :=
  if check_has_consolidated_data df ELEMENT_NET_SALES
  then CONSOLIDATED else NON_CONSOLIDATED.

(** The synthesis rule of the receivables: absent without the base; the base
    itself when the claims are absent; the base plus the claims otherwise.
    The sum with an absent or zero claim is the float [base + 0], which is the
    same number as the base and the base itself unless the base is the
    negative zero. *)
Definition synthesized (base claims synth : option float) : Prop :=
  (base = None -> synth = None)
  /\ (forall b, base = Some b -> claims = None ->
        exists s, synth = Some s /\ same_number s b
                  /\ (b <> (-0)%float -> s = b))
  /\ (forall b c, base = Some b -> claims = Some c ->
        exists s, synth = Some s /\ same_number s (b + c)%float
                  /\ ((c =? 0)%float = false -> s = (b + c)%float))
  /\ (synth <> None -> base <> None).

(** A derived metric [d] of the operands [a] and [b]: present exactly when
    both are, and then their float difference. *)
Definition derived (a b d : option float) : Prop :=
  (d <> None <-> a <> None /\ b <> None)
  /\ (forall x y, a = Some x -> b = Some y -> d = Some (x - y)%float).

(** [v] is the normalized value of a row of the given scope. *)
Definition from_scope (df : DataFrame) (scope : string) (v : float) : Prop :=
  exists r, In r df /\ cons_type r = scope
            /\ normalize_value (value r) (unit r) = Some v.

(** Every required field of a record is present. *)
Definition required_present (mj : MJInput) : bool :=
  is_some (rev_t mj) && is_some (rev_t1 mj) && is_some (ni_t mj)
  && is_some (cfo_t mj) && is_some (assets_prev_end mj)
  && is_some (ar_end_t mj) && is_some (ar_end_t1 mj) && is_some (ppe_end_t mj)
  && is_some (ta_t mj) && is_some (d_rev mj) && is_some (d_ar mj).

(** The lists of [a] followed by the lists of [b]. *)
Definition app_locals (a b : Locals) : Locals :=
  mkLocals (mj_inputs a ++ mj_inputs b)%list
           (missing_logs a ++ missing_logs b)%list
           (duplicate_logs a ++ duplicate_logs b)%list
           (rec_debug_logs a ++ rec_debug_logs b)%list.

Definition concat_locals (l : list Locals) : Locals :=
  fold_right app_locals no_locals l.

(** The filings of a fiscal year [k] among the scanned ones. *)
Definition same_year (k : option Z) (m : TSVMetadata) : bool :=
  bool_decide (meta_fiscal_year m = k).

(** What one fiscal year adds to the lists of a company, and the exception
    that leaves its turn of the loop, if any. *)
Definition year_delta (w : World) (code : string) (company_info : CompanyInfo)
  (fy : Z) : Locals * option string :=
  process_year w code company_info
    (group_by_year (fst (scan_tsvs_for_company w code)))
    (snd (scan_tsvs_for_company w code)) no_locals fy.

(** The filings of a company for a fiscal year, in scan order. *)
Definition year_metas_of (w : World) (code : string) (fy : Z) : list TSVMetadata :=
  List.filter (fun m => match meta_fiscal_year m with
                        | Some y => (y =? fy)%Z
                        | None => false
                        end)
              (fst (scan_tsvs_for_company w code)).


End Engine.

(** ** A concrete [float] for running the model

    [float(s)] on the plain decimal integers of at most 18 digits, with an
    optional minus sign; every other text is rejected.  It is used to run the
    functions on sample filings. *)

Fixpoint digits_value (s : string) (acc : Z) : option Z :=
  match s with
  | EmptyString => Some acc
  | String c r =>
    let n := nat_of_ascii c in
    if ((48 <=? n) && (n <=? 57))%nat
    then digits_value r (10 * acc + Z.of_nat (n - 48))%Z
    else None
  end.

Definition float_of_digits (s : string) : option float :=
  if ((1 <=? String.length s) && (String.length s <=? 18))%nat
  then option_map (fun z => PrimFloat.of_uint63 (Uint63.of_Z z)) (digits_value s 0%Z)
  else None.

Definition decimal_float (s : string) : option float :=
  match s with
  | String "-" r => option_map PrimFloat.opp (float_of_digits r)
  | _ => float_of_digits s
  end.

(** Sample rows: a consolidated or a non-consolidated fact in yen. *)
Definition fact (elem ctx rel cons kind val : string) : Row :=
  {| elem_id := JPPFS ++ elem; context_id := Some ctx; relative_year := rel;
     cons_type := cons; period_type := kind; unit := Some "円"; value := Some val |}.

(** The filing of the end-to-end scenario: consolidated scope only. *)
Definition sample_df : DataFrame :=
  [ fact "NetSales" "CurrentYearDuration" CUR CONSOLIDATED DURATION "1000";
    fact "NetSales" "Prior1YearDuration" PRIOR CONSOLIDATED DURATION "800";
    fact "ProfitLoss" "CurrentYearDuration" CUR CONSOLIDATED DURATION "50";
    fact "NetCashProvidedByUsedInOperatingActivities" "CurrentYearDuration"
         CUR CONSOLIDATED DURATION "70";
    fact "Assets" "Prior1YearInstant" PRIOR_END CONSOLIDATED INSTANT "900";
    fact "NotesAndAccountsReceivableTrade" "CurrentYearInstant"
         CUR_END CONSOLIDATED INSTANT "120";
    fact "NotesAndAccountsReceivableTrade" "Prior1YearInstant"
         PRIOR_END CONSOLIDATED INSTANT "100";
    fact "PropertyPlantAndEquipment" "CurrentYearInstant"
         CUR_END CONSOLIDATED INSTANT "300" ].

Definition sample_meta (path : string) (fy : Z) (submitted : option string)
  : TSVMetadata :=
  {| tsv_path := path; meta_edinet_code := "E00001";
     accounting_standard := Some "Japan GAAP"; meta_fiscal_year := Some fy;
     fiscal_year_start := None; fiscal_year_end := None;
     submit_datetime := submitted; meta_doc_id := None;
     has_ifrs_us_gaap := false |}.

(** A company with one filing for 2015 and one for 2016, both holding the
    sample table; in [faulty_world] an exception escapes the extraction of the
    filing of 2016. *)
Definition sample_path_2015 : string := "annual/E00001/S100AAAA.tsv".
Definition sample_path_2016 : string := "annual/E00001/S100BBBB.tsv".

Definition sound_world : World :=
  {| glob_tsv := fun code =>
       if String.eqb code "E00001" then Some [sample_path_2015; sample_path_2016]
       else None;
     read_tsv_dei_only := fun p =>
       if String.eqb p sample_path_2015
       then Some (sample_meta p 2015 (Some "2016-06-28"))
       else if String.eqb p sample_path_2016
            then Some (sample_meta p 2016 (Some "2017-06-28"))
            else None;
     read_tsv := fun _ => Returned sample_df;
     escaping := fun _ => None |}.

Definition faulty_world : World :=
  {| glob_tsv := glob_tsv sound_world;
     read_tsv_dei_only := read_tsv_dei_only sound_world;
     read_tsv := read_tsv sound_world;
     escaping := fun p =>
       if String.eqb p sample_path_2016 then Some "MemoryError" else None |}.

Definition sample_company : CompanyInfo :=
  {| ci_edinet_code := "E00001"; ci_sec_code := None; ci_company_name := None;
     ci_industry := None; ci_market := None |}.

(** ** Notions used to state further properties *)

(** A text made of one-byte whitespace only. *)
Fixpoint blank (s : string) : bool :=
  match s with
  | EmptyString => true
  | String c r => ascii_space c && blank r
  end.

(** A row of the requested period, period kind and scope that is not a
    segment member: the only rows a resolver call can use. *)
Definition relevant (relative_year' period_type' consolidated : string) (r : Row)
  : bool :=
  String.eqb (relative_year r) relative_year'
  && String.eqb (period_type r) period_type'
  && String.eqb (cons_type r) consolidated
  && not_segment r.

(** The number of absent fields among the given ones. *)
Definition count_absent (fields : list (option float)) : nat :=
  length (List.filter (fun f => negb (is_some f)) fields).

(** The eleven required fields of a record, in the order of their reasons. *)
Definition required_fields (mj : MJInput) : list (option float) :=
  [ rev_t mj; rev_t1 mj; ni_t mj; cfo_t mj; assets_prev_end mj;
    ar_end_t mj; ar_end_t1 mj; ppe_end_t mj; ta_t mj; d_rev mj; d_ar mj ].

(** Two resolver answers that name the same tag and the same number. *)
Definition same_answer (a b : option float * option string) : Prop :=
  snd a = snd b
  /\ match fst a, fst b with
     | Some x, Some y => same_number x y
     | None, None => True
     | _, _ => False
     end.

(** A filing that the scan keeps. *)
Definition eligible (m : TSVMetadata) : Prop :=
  (exists fy, meta_fiscal_year m = Some fy
              /\ (FISCAL_YEAR_MIN <= fy <= FISCAL_YEAR_MAX)%Z)
  /\ has_ifrs_us_gaap m = false
  /\ (accounting_standard m = None
      \/ exists a, accounting_standard m = Some a /\ contains "Japan GAAP" a = true).

(** What a company contributes to the aggregation. *)
Definition contribution (py_float : string -> option float) (w : World)
  (c : CompanyInfo) : Locals :=
  match process_one py_float w c with
  | Returned st => st
  | Raised _ => no_locals
  end.

Definition failed (py_float : string -> option float) (w : World)
  (c : CompanyInfo) : bool :=
  match process_one py_float w c with
  | Returned _ => false
  | Raised _ => true
  end.

(** One when the field is absent, zero when it is present. *)
Definition absent01 (f : option float) : nat := if is_some f then 0%nat else 1%nat.

(** A fiscal year for which the scan kept at least one filing. *)
Definition has_filing (w : World) (code : string) (fy : Z) : bool :=
  match year_metas_of w code fy with
  | [] => false
  | _ :: _ => true
  end.

(** The reason logged for a fiscal year without an eligible filing. *)
Definition no_filing_reason (w : World) (code : string) (fy : Z) : string :=
  match snd (scan_tsvs_for_company w code) !! fy with
  | Some std => "accounting_standard: " ++ std
  | None => "no_tsv_found_for_year"
  end.

(** The warning of a company whose processing raised. *)
Definition warning_of (py_float : string -> option float) (w : World)
  (c : CompanyInfo) : list string :=
  match process_one py_float w c with
  | Returned _ => []
  | Raised e => [("Error processing " ++ ci_edinet_code c ++ ": " ++ e)%string]
  end.


(** A company without a directory. *)
Definition absent_company : CompanyInfo :=
  {| ci_edinet_code := "E99999"; ci_sec_code := None; ci_company_name := None;
     ci_industry := None; ci_market := None |}.

(** The label under which the scan records a filing of the range that it
    does not keep: the standard of a filing flagged IFRS or US-GAAP (or
    "IFRS/US-GAAP"), the standard of an unflagged filing that does not name
    Japan GAAP (or "Unknown"); none for a filing that is kept. *)
Definition exclusion_label (m : TSVMetadata) : option string :=
  if has_ifrs_us_gaap m
  then Some (or_str (accounting_standard m) "IFRS/US-GAAP")
  else match accounting_standard m with
       | None => None
       | Some a =>
         if contains "Japan GAAP" a then None
         else Some (or_str (accounting_standard m) "Unknown")
       end.

(** The label the filing at a path gives to fiscal year [fy], if any. *)
Definition label_at (w : World) (fy : Z) (p : string) : option string :=
  match read_tsv_dei_only w p with
  | Some m =>
    if bool_decide (meta_fiscal_year m = Some fy) then exclusion_label m else None
  | None => None
  end.

(** The last label given to [fy] along the paths, in directory order. *)
Fixpoint last_label (w : World) (fy : Z) (paths : list string) : option string :=
  match paths with
  | [] => None
  | p :: rest =>
    match last_label w fy rest with
    | Some l => Some l
    | None => label_at w fy p
    end
  end.

(** A company with two filings for 2015, the first under IFRS and the second
    under US GAAP. *)
Definition overwrite_world : World :=
  {| glob_tsv := fun code =>
       if String.eqb code "E00002"
       then Some ["annual/E00002/S100CCCC.tsv"; "annual/E00002/S100DDDD.tsv"]
       else None;
     read_tsv_dei_only := fun p =>
       if String.eqb p "annual/E00002/S100CCCC.tsv"
       then Some {| tsv_path := p; meta_edinet_code := "E00002";
                    accounting_standard := Some "IFRS"; meta_fiscal_year := Some 2015%Z;
                    fiscal_year_start := None; fiscal_year_end := None;
                    submit_datetime := None; meta_doc_id := None;
                    has_ifrs_us_gaap := false |}
       else if String.eqb p "annual/E00002/S100DDDD.tsv"
            then Some {| tsv_path := p; meta_edinet_code := "E00002";
                         accounting_standard := Some "US GAAP";
                         meta_fiscal_year := Some 2015%Z;
                         fiscal_year_start := None; fiscal_year_end := None;
                         submit_datetime := None; meta_doc_id := None;
                         has_ifrs_us_gaap := false |}
            else None;
     read_tsv := fun _ => Returned [];
     escaping := fun _ => None |}.

(** A table whose only row is a consolidated net-sales fact of the current
    period with an empty context cell, which loads as null. *)
Definition null_context_row : Row :=
  {| elem_id := JPPFS ++ "NetSales"; context_id := None; relative_year := CUR;
     cons_type := CONSOLIDATED; period_type := DURATION;
     unit := Some "円"; value := Some "1000" |}.

Definition null_context_df : DataFrame := [null_context_row].

(** ** Facts on binary64 comparison and addition *)

Module FloatFacts.

Lemma pos_cont_eq (m1 m2 : positive) :
  Pos.compare_cont Eq m1 m2 = Pos.compare m1 m2.
Proof. reflexivity. Qed.

Ltac cmp_cases :=
  repeat match goal with
  | |- context [Pos.compare_cont Eq ?a ?b] =>
      change (Pos.compare_cont Eq a b) with (Pos.compare a b) in *
  | H : context [Pos.compare_cont Eq ?a ?b] |- _ =>
      change (Pos.compare_cont Eq a b) with (Pos.compare a b) in *
  | |- context [Z.compare ?a ?b] => destruct (Z.compare_spec a b)
  | |- context [Pos.compare ?a ?b] => destruct (Pos.compare_spec a b)
  | H : context [Z.compare ?a ?b] |- _ => destruct (Z.compare_spec a b)
  | H : context [Pos.compare ?a ?b] |- _ => destruct (Pos.compare_spec a b)
  end.

Lemma SFltb_trans (x y z : spec_float) :
  SFltb x y = true -> SFltb y z = true -> SFltb x z = true.
Proof.
  unfold SFltb, SFcompare.
  destruct x as [sx|sx| |sx mx ex], y as [sy|sy| |sy my ey], z as [sz|sz| |sz mz ez];
    repeat match goal with s : bool |- _ => destruct s end;
    cbn; try discriminate; try reflexivity;
    rewrite ?pos_cont_eq; intros H1 H2;
    cmp_cases; subst; cbn in *; try discriminate; try reflexivity; try lia.
Qed.

Lemma SFltb_irrefl (x : spec_float) : SFltb x x = false.
Proof.
  unfold SFltb, SFcompare.
  destruct x as [sx|sx| |sx mx ex];
    repeat match goal with s : bool |- _ => destruct s end; cbn; try reflexivity;
    rewrite ?pos_cont_eq, Z.compare_refl, Pos.compare_refl; reflexivity.
Qed.

Lemma SFleb_total (x y : spec_float) :
  SFeqb x x = true -> SFeqb y y = true -> SFltb x y = false -> SFleb y x = true.
Proof.
  unfold SFeqb, SFltb, SFleb, SFcompare.
  destruct x as [sx|sx| |sx mx ex], y as [sy|sy| |sy my ey];
    repeat match goal with s : bool |- _ => destruct s end;
    cbn; try discriminate; try reflexivity;
    rewrite ?pos_cont_eq; intros _ _ H;
    cmp_cases; subst; cbn in *; try discriminate; try reflexivity; try lia.
Qed.

Lemma ltb_trans (x y z : float) :
  (x <? y)%float = true -> (y <? z)%float = true -> (x <? z)%float = true.
Proof. rewrite !FloatAxioms.ltb_spec. apply SFltb_trans. Qed.

Lemma ltb_irrefl (x : float) : (x <? x)%float = false.
Proof. rewrite FloatAxioms.ltb_spec. apply SFltb_irrefl. Qed.

Lemma leb_total (x y : float) :
  is_nan x = false -> is_nan y = false ->
  (x <? y)%float = false -> (y <=? x)%float = true.
Proof.
  unfold is_nan. intros Hx Hy.
  apply negb_false_iff in Hx. apply negb_false_iff in Hy.
  rewrite FloatAxioms.eqb_spec in Hx, Hy. rewrite FloatAxioms.ltb_spec, FloatAxioms.leb_spec.
  now apply SFleb_total.
Qed.

Lemma SFeqb_refl_or_nan (x : spec_float) : SFeqb x x = true \/ x = S754_nan.
Proof.
  unfold SFeqb, SFcompare.
  destruct x as [sx|sx| |sx mx ex];
    repeat match goal with s : bool |- _ => destruct s end; cbn; auto;
    rewrite ?pos_cont_eq, Z.compare_refl, Pos.compare_refl; auto.
Qed.

Lemma same_number_refl (x : float) : same_number x x.
Proof.
  unfold same_number, is_nan. rewrite FloatAxioms.eqb_spec.
  destruct (SFeqb_refl_or_nan (Prim2SF x)) as [H|H]; [now left|right].
  rewrite H. cbn. auto.
Qed.

Lemma SF_zero_inv (c : spec_float) :
  SFeqb c (S754_zero false) = true -> exists s, c = S754_zero s.
Proof.
  unfold SFeqb, SFcompare.
  destruct c as [s|s| |s m e]; try destruct s; cbn; try discriminate; eauto.
Qed.

(** Adding a zero of either sign gives the same number as adding [0]. *)
Lemma add_zero_like (b c : float) :
  (c =? 0)%float = true -> same_number (b + 0)%float (b + c)%float.
Proof.
  rewrite FloatAxioms.eqb_spec. change (Prim2SF 0) with (S754_zero false).
  intros H. destruct (SF_zero_inv _ H) as [s Hs].
  unfold same_number, is_nan. rewrite !FloatAxioms.eqb_spec, !FloatAxioms.add_spec, Hs.
  change (Prim2SF 0) with (S754_zero false).
  unfold SF64add, SFadd.
  destruct (Prim2SF b) as [sb|sb| |sb mb eb] eqn:Hb.
  - left. destruct sb, s; reflexivity.
  - left. destruct sb; reflexivity.
  - right. split; reflexivity.
  - left. destruct (SFeqb_refl_or_nan (S754_finite sb mb eb)) as [E|E];
      [exact E|discriminate].
Qed.

Lemma add_zero_same (b : float) : same_number (b + 0)%float b.
Proof.
  unfold same_number, is_nan. rewrite !FloatAxioms.eqb_spec, !FloatAxioms.add_spec.
  change (Prim2SF 0) with (S754_zero false).
  unfold SF64add, SFadd.
  destruct (Prim2SF b) as [sb|sb| |sb mb eb] eqn:Hb.
  - left. destruct sb; reflexivity.
  - left. destruct sb; reflexivity.
  - right. split; reflexivity.
  - left. destruct (SFeqb_refl_or_nan (S754_finite sb mb eb)) as [E|E];
      [exact E|discriminate].
Qed.

(** Adding [0] changes nothing but the sign of a negative zero. *)
Lemma add_zero_exact (b : float) : Prim2SF b <> S754_zero true -> (b + 0)%float = b.
Proof.
  intros H. apply Prim2SF_inj. rewrite FloatAxioms.add_spec.
  change (Prim2SF 0) with (S754_zero false).
  unfold SF64add, SFadd.
  destruct (Prim2SF b) as [sb|sb| |sb mb eb]; try reflexivity.
  destruct sb; [congruence|reflexivity].
Qed.

End FloatFacts.

(** ** Facts on the string operations *)

Module PyStrFacts.

Lemma app_cons (c : ascii) (r s : string) : String c r ++ s = String c (r ++ s).
Proof. reflexivity. Qed.

Lemma app_nil (s : string) : "" ++ s = s.
Proof. reflexivity. Qed.

Ltac push_app := rewrite ?app_cons, ?app_nil.

Lemma space3_close (c1 c2 : ascii) : space3 c1 c2 ")" = false.
Proof.
  unfold space3. cbn [nat_of_ascii].
  change (nat_of_ascii ")") with 41%nat. cbn.
  rewrite !andb_false_r. reflexivity.
Qed.

Lemma lstrip_cons (c1 : ascii) (r1 : string) :
  lstrip (String c1 r1) =
  if ascii_space c1 then lstrip r1
  else if lead2 c1 then
    match r1 with
    | String c2 r2 => if space2 c2 then lstrip r2 else String c1 r1
    | EmptyString => String c1 r1
    end
  else if lead3 c1 then
    match r1 with
    | String c2 (String c3 r3) => if space3 c1 c2 c3 then lstrip r3 else String c1 r1
    | _ => String c1 r1
    end
  else String c1 r1.
Proof. reflexivity. Qed.

(** Stripping on the left never empties a text that ends with a parenthesis. *)
Lemma lstrip_close (n : nat) :
  forall s, (String.length s <= n)%nat -> exists t, lstrip (s ++ ")") = t ++ ")".
Proof.
  induction n as [|n IH]; intros s Hlen.
  - destruct s; [|cbn [String.length] in Hlen; lia]. exists "". reflexivity.
  - destruct s as [|c1 r1]; [exists ""; reflexivity|].
    cbn [String.length] in Hlen. push_app. rewrite lstrip_cons.
    destruct (ascii_space c1); [apply (IH r1); lia|].
    destruct (lead2 c1).
    { destruct r1 as [|c2 r2]; push_app.
      - exists (String c1 ""). reflexivity.
      - destruct (space2 c2).
        + apply (IH r2). cbn [String.length] in Hlen. lia.
        + exists (String c1 (String c2 r2)). reflexivity. }
    destruct (lead3 c1); [|exists (String c1 r1); reflexivity].
    destruct r1 as [|c2 [|c3 r3]]; push_app.
    + exists (String c1 ""). reflexivity.
    + rewrite space3_close. exists (String c1 (String c2 "")). reflexivity.
    + destruct (space3 c1 c2 c3).
      * apply (IH r3). cbn [String.length] in Hlen. lia.
      * exists (String c1 (String c2 (String c3 r3))). reflexivity.
Qed.

Lemma append_close_nonempty (t : string) : t ++ ")" <> "".
Proof. destruct t; discriminate. Qed.

Lemma all_space_close (s : string) : all_space (s ++ ")") = false.
Proof.
  unfold all_space.
  destruct (lstrip_close (String.length s) s (le_n _)) as [t Ht].
  rewrite Ht. destruct t; reflexivity.
Qed.

Lemma rstrip_close (s : string) : rstrip (s ++ ")") = s ++ ")".
Proof.
  induction s as [|c r IH].
  - reflexivity.
  - push_app; cbn [rstrip].
    change (String c (r ++ ")")) with (String c r ++ ")") at 1.
    rewrite all_space_close, IH. reflexivity.
Qed.

Lemma strip_parens (body : string) :
  strip ("(" ++ body ++ ")") = "(" ++ body ++ ")".
Proof.
  unfold strip. push_app.
  change (lstrip (String "(" (body ++ ")"))) with (String "(" (body ++ ")")).
  change (String "(" (body ++ ")")) with (String "(" body ++ ")").
  apply rstrip_close.
Qed.

Lemma remove_commas_app (a b : string) :
  remove_commas (a ++ b) = remove_commas a ++ remove_commas b.
Proof.
  induction a as [|c r IH]; [reflexivity|].
  push_app; cbn [remove_commas]. destruct (Ascii.eqb c ","); push_app; now rewrite IH.
Qed.

Lemma endswith_close (s : string) : endswith ")" (s ++ ")") = true.
Proof.
  induction s as [|c r IH]; [reflexivity|].
  push_app; cbn [endswith]. rewrite IH. apply orb_true_r.
Qed.

Lemma drop_last_close (s : string) : drop_last (s ++ ")") = s.
Proof.
  induction s as [|c r IH]; [reflexivity|].
  destruct r as [|c' r']; [reflexivity|].
  rewrite !app_cons in *.
  change (drop_last (String c (String c' (r' ++ ")"))))
    with (String c (drop_last (String c' (r' ++ ")")))).
  now rewrite IH.
Qed.

(** A text that starts with a negative glyph keeps it when stripped. *)
Lemma strip_glyph_1 (body : string) :
  strip (NEG_GLYPH_1 ++ body) = NEG_GLYPH_1 ++ rstrip body.
Proof. reflexivity. Qed.

Lemma strip_glyph_2 (body : string) :
  strip (NEG_GLYPH_2 ++ body) = NEG_GLYPH_2 ++ rstrip body.
Proof. reflexivity. Qed.

End PyStrFacts.

(** ** Value normalizer *)

Section Normalizer.

Variable py_float : string -> option float.

Lemma in_tuple_paren (x : string) : in_tuple (String "(" x) MISSING_PATTERNS = false.
Proof. reflexivity. Qed.

Lemma normalize_parens (body : string) (u : option string) :
  normalize_value py_float (Some ("(" ++ body ++ ")")) u
  = option_map (fun x => ((- x) * unit_multiplier u)%float)
               (py_float (remove_commas body)).
Proof.
  unfold normalize_value.
  rewrite PyStrFacts.strip_parens.
  rewrite PyStrFacts.app_cons, PyStrFacts.app_nil, in_tuple_paren.
  change (String "(" (body ++ ")")) with ("(" ++ body ++ ")").
  rewrite !PyStrFacts.remove_commas_app.
  change (remove_commas "(") with "("; change (remove_commas ")") with ")".
  rewrite PyStrFacts.app_cons, PyStrFacts.app_nil.
  change (startswith "(" (String "(" (remove_commas body ++ ")"))) with true.
  change (String "(" (remove_commas body ++ ")"))
    with (String "(" (remove_commas body) ++ ")") at 1.
  rewrite PyStrFacts.endswith_close.
  cbn [andb drop]. rewrite PyStrFacts.drop_last_close.
  destruct (py_float (remove_commas body)); reflexivity.
Qed.

Lemma normalize_glyph_1 (body : string) (u : option string) :
  normalize_value py_float (Some (NEG_GLYPH_1 ++ body)) u
  = option_map (fun x => ((- x) * unit_multiplier u)%float)
               (py_float (remove_commas (rstrip body))).
Proof.
  unfold normalize_value.
  rewrite PyStrFacts.strip_glyph_1.
  change (in_tuple (NEG_GLYPH_1 ++ rstrip body) MISSING_PATTERNS) with false.
  rewrite PyStrFacts.remove_commas_app.
  change (remove_commas NEG_GLYPH_1) with NEG_GLYPH_1.
  change (startswith "(" (NEG_GLYPH_1 ++ remove_commas (rstrip body))) with false.
  change (startswith NEG_GLYPH_1 (NEG_GLYPH_1 ++ remove_commas (rstrip body))) with true.
  cbn [andb orb].
  change (drop (String.length NEG_GLYPH_1) (NEG_GLYPH_1 ++ remove_commas (rstrip body)))
    with (remove_commas (rstrip body)).
  destruct (py_float (remove_commas (rstrip body))); reflexivity.
Qed.

Lemma normalize_glyph_2 (body : string) (u : option string) :
  normalize_value py_float (Some (NEG_GLYPH_2 ++ body)) u
  = option_map (fun x => ((- x) * unit_multiplier u)%float)
               (py_float (remove_commas (rstrip body))).
Proof.
  unfold normalize_value.
  rewrite PyStrFacts.strip_glyph_2.
  change (in_tuple (NEG_GLYPH_2 ++ rstrip body) MISSING_PATTERNS) with false.
  rewrite PyStrFacts.remove_commas_app.
  change (remove_commas NEG_GLYPH_2) with NEG_GLYPH_2.
  change (startswith "(" (NEG_GLYPH_2 ++ remove_commas (rstrip body))) with false.
  change (startswith NEG_GLYPH_1 (NEG_GLYPH_2 ++ remove_commas (rstrip body))) with false.
  change (startswith NEG_GLYPH_2 (NEG_GLYPH_2 ++ remove_commas (rstrip body))) with true.
  cbn [andb orb].
  change (drop (String.length NEG_GLYPH_1) (NEG_GLYPH_2 ++ remove_commas (rstrip body)))
    with (remove_commas (rstrip body)).
  destruct (py_float (remove_commas (rstrip body))); reflexivity.
Qed.

Lemma unit_multiplier_default (u : string) :
  dict_get UNIT_MAP u = None -> unit_multiplier (Some u) = 1%float.
Proof. unfold unit_multiplier. now intros ->. Qed.

(** C9.  A value text wrapped in ASCII parentheses, or prefixed by one of the
    two negative glyphs, normalizes to the negation of the number read from
    the unwrapped text (thousands separators removed) times the unit factor,
    and to absent when the unwrapped text is no number.  The unit factors are
    1 for yen, 1e3 for thousand yen, 1e6 for million yen, 1e8 for
    hundred-million yen, and 1 for any unit outside the table.  With "1234"
    and "5" read as 1234 and 5: normalize("(1,234)", thousand) = -1234000 and
    normalize("5", hundred-million) = 500000000. *)
Theorem normalize_value_negative_and_scaled :
  (forall body u,
      normalize_value py_float (Some ("(" ++ body ++ ")")) u
      = option_map (fun x => ((- x) * unit_multiplier u)%float)
                   (py_float (remove_commas body)))
  /\ (forall body u,
      normalize_value py_float (Some (NEG_GLYPH_1 ++ body)) u
      = option_map (fun x => ((- x) * unit_multiplier u)%float)
                   (py_float (remove_commas (rstrip body))))
  /\ (forall body u,
      normalize_value py_float (Some (NEG_GLYPH_2 ++ body)) u
      = option_map (fun x => ((- x) * unit_multiplier u)%float)
                   (py_float (remove_commas (rstrip body))))
  /\ unit_multiplier (Some "円") = 1%float
  /\ unit_multiplier (Some "千円") = 1000%float
  /\ unit_multiplier (Some "百万円") = 1000000%float
  /\ unit_multiplier (Some "億円") = 100000000%float
  /\ (forall u, dict_get UNIT_MAP u = None -> unit_multiplier (Some u) = 1%float)
  /\ (py_float "1234" = Some 1234%float ->
      normalize_value py_float (Some "(1,234)") (Some "千円")
      = Some (-1234000)%float)
  /\ (py_float "5" = Some 5%float ->
      normalize_value py_float (Some "5") (Some "億円") = Some 500000000%float).
Proof.
  split; [exact normalize_parens|].
  split; [exact normalize_glyph_1|].
  split; [exact normalize_glyph_2|].
  do 4 (split; [reflexivity|]).
  split; [exact unit_multiplier_default|].
  split.
  - intros H.
    change "(1,234)" with ("(" ++ "1,234" ++ ")").
    rewrite normalize_parens.
    change (remove_commas "1,234") with "1234". rewrite H. reflexivity.
  - intros H. unfold normalize_value.
    change (strip "5") with "5".
    change (in_tuple "5" MISSING_PATTERNS) with false.
    change (remove_commas "5") with "5".
    change (startswith "(" "5") with false.
    change (startswith NEG_GLYPH_1 "5") with false.
    change (startswith NEG_GLYPH_2 "5") with false.
    cbn [andb orb]. rewrite H. reflexivity.
Qed.

End Normalizer.

(** The two examples of C9 run with [decimal_float]. *)
Lemma normalize_value_examples :
  normalize_value decimal_float (Some "(1,234)") (Some "千円") = Some (-1234000)%float
  /\ normalize_value decimal_float (Some "5") (Some "億円") = Some 500000000%float.
Proof.
  destruct (normalize_value_negative_and_scaled decimal_float)
    as (_ & _ & _ & _ & _ & _ & _ & _ & H1 & H2).
  split; [apply H1 | apply H2]; reflexivity.
Defined.

(** ** Fact resolver *)

Section Resolver.

Variable py_float : string -> option float.

Lemma py_max_in (xs : list float) : forall x, In (py_max x xs) (x :: xs).
Proof.
  unfold py_max. induction xs as [|v vs IH]; intros x; cbn [fold_left].
  - now left.
  - destruct (IH (if (x <? v)%float then v else x)) as [H|H].
    + destruct (x <? v)%float; rewrite <- H; [right; now left | now left].
    + right. now right.
Qed.

(** No value beats the running maximum once the scan has passed it. *)
Lemma py_max_keeps (xs : list float) :
  forall x y, (x <? y)%float = false -> (py_max x xs <? y)%float = false.
Proof.
  unfold py_max. induction xs as [|v vs IH]; intros x y Hxy; cbn [fold_left].
  - exact Hxy.
  - apply IH. destruct (x <? v)%float eqn:Hxv; [|exact Hxy].
    destruct (v <? y)%float eqn:Hvy; [|reflexivity].
    rewrite (FloatFacts.ltb_trans _ _ _ Hxv Hvy) in Hxy. discriminate.
Qed.

Lemma py_max_upper (xs : list float) :
  forall x w, In w (x :: xs) -> (py_max x xs <? w)%float = false.
Proof.
  induction xs as [|v vs IH]; intros x w Hw.
  - destruct Hw as [<-|[]]. apply FloatFacts.ltb_irrefl.
  - destruct Hw as [<-|[<-|Hw]].
    + apply py_max_keeps, FloatFacts.ltb_irrefl.
    + change (py_max x (v :: vs)) with (py_max (if (x <? v)%float then v else x) vs).
      apply py_max_keeps. destruct (x <? v)%float eqn:E; [apply FloatFacts.ltb_irrefl|exact E].
    + change (py_max x (v :: vs)) with (py_max (if (x <? v)%float then v else x) vs).
      apply IH. now right.
Qed.

Lemma py_max_greatest (x : float) (xs : list float) :
  (forall w, In w (x :: xs) -> is_nan w = false) ->
  forall w, In w (x :: xs) -> (w <=? py_max x xs)%float = true.
Proof.
  intros Hnan w Hw. apply FloatFacts.leb_total.
  - apply Hnan, py_max_in.
  - now apply Hnan.
  - now apply py_max_upper.
Qed.

Lemma normalized_values_In (rs : list Row) (v : float) :
  In v (normalized_values py_float rs)
  <-> exists r, In r rs /\ normalize_value py_float (value r) (unit r) = Some v.
Proof.
  induction rs as [|r rs IH]; cbn [normalized_values].
  - split; [intros []|intros (r & [] & _)].
  - destruct (normalize_value py_float (value r) (unit r)) as [x|] eqn:E.
    + split.
      * intros [<-|H]; [exists r; split; [now left|exact E]|].
        apply IH in H as (r' & H1 & H2). exists r'. split; [now right|exact H2].
      * intros (r' & [<-|H1] & H2).
        -- left. congruence.
        -- right. apply IH. eauto.
    + rewrite IH. split.
      * intros (r' & H1 & H2). exists r'. split; [now right|exact H2].
      * intros (r' & [<-|H1] & H2); [congruence|eauto].
Qed.

Lemma not_segment_spec (r : Row) :
  not_segment r = true
  <-> exists c, context_id r = Some c
                /\ (contains "Member" c = true ->
                    contains "NonConsolidatedMember" c = true
                    \/ contains "ConsolidatedMember" c = true).
Proof.
  unfold not_segment, str_contains.
  destruct (context_id r) as [c|]; cbn [option_map].
  - split.
    + intros H. exists c. split; [reflexivity|].
      destruct (contains "Member" c), (contains "NonConsolidatedMember" c),
               (contains "ConsolidatedMember" c); cbn in H; try discriminate; tauto.
    + intros (c' & E & H). injection E as <-.
      destruct (contains "Member" c), (contains "NonConsolidatedMember" c),
               (contains "ConsolidatedMember" c); cbn; try reflexivity;
        destruct H; try reflexivity; discriminate.
  - cbn. split; [discriminate|]. intros (c & H & _). discriminate.
Qed.

Lemma matches_spec (full rel pt cons : string) (r : Row) :
  matches full rel pt cons r = true
  <-> elem_id r = full /\ relative_year r = rel /\ period_type r = pt
      /\ cons_type r = cons.
Proof.
  unfold matches. rewrite !andb_true_iff, !String.eqb_eq. tauto.
Qed.

(** The values the code collects for a tag are the usable values. *)
Lemma usable_iff (df : DataFrame) (full rel pt cons : string) (v : float) :
  usable py_float df full rel pt cons v
  <-> In v (normalized_values py_float
             (List.filter not_segment (List.filter (matches full rel pt cons) df))).
Proof.
  rewrite normalized_values_In. unfold usable. split.
  - intros (r & Hin & H1 & H2 & H3 & H4 & Hseg & Hv). exists r. split; [|exact Hv].
    apply filter_In. split; [|now apply not_segment_spec].
    apply filter_In. split; [exact Hin|now apply matches_spec].
  - intros (r & Hin & Hv). apply filter_In in Hin as [Hin Hseg].
    apply filter_In in Hin as [Hin Hm]. apply matches_spec in Hm as (H1 & H2 & H3 & H4).
    exists r. repeat (split; [assumption|]). split; [now apply not_segment_spec|exact Hv].
Qed.

Lemma with_eid_step (df : DataFrame) (elem : string) (rest : list string)
  (rel pt cons prefix : string) :
  _extract_value_polars_with_eid py_float df (elem :: rest) rel pt cons prefix
  = match normalized_values py_float
            (List.filter not_segment (List.filter (matches (prefix ++ elem) rel pt cons) df)) with
    | v :: vs => (Some (py_max v vs), Some elem)
    | [] => _extract_value_polars_with_eid py_float df rest rel pt cons prefix
    end.
Proof.
  cbn [_extract_value_polars_with_eid].
  destruct (List.filter not_segment (List.filter (matches (prefix ++ elem) rel pt cons) df));
    reflexivity.
Qed.

Lemma value_only_step (df : DataFrame) (elem : string) (rest : list string)
  (rel pt cons prefix : string) :
  _extract_value_polars py_float df (elem :: rest) rel pt cons prefix
  = match normalized_values py_float
            (List.filter not_segment (List.filter (matches (prefix ++ elem) rel pt cons) df)) with
    | v :: vs => Some (py_max v vs)
    | [] => _extract_value_polars py_float df rest rel pt cons prefix
    end.
Proof.
  cbn [_extract_value_polars].
  destruct (List.filter not_segment (List.filter (matches (prefix ++ elem) rel pt cons) df));
    reflexivity.
Qed.

Lemma value_only_fst (df : DataFrame) (ids : list string) (rel pt cons prefix : string) :
  _extract_value_polars py_float df ids rel pt cons prefix
  = fst (_extract_value_polars_with_eid py_float df ids rel pt cons prefix).
Proof.
  induction ids as [|elem rest IH]; [reflexivity|].
  rewrite with_eid_step, value_only_step.
  destruct (normalized_values py_float _); [exact IH|reflexivity].
Qed.

Lemma no_usable_nil (df : DataFrame) (full rel pt cons : string) :
  (forall x, ~ usable py_float df full rel pt cons x)
  <-> normalized_values py_float
        (List.filter not_segment (List.filter (matches full rel pt cons) df)) = [].
Proof.
  split.
  - intros H. destruct (normalized_values py_float _) as [|v vs] eqn:E; [reflexivity|].
    exfalso. apply (H v). apply usable_iff. rewrite E. now left.
  - intros E x Hx. apply usable_iff in Hx. rewrite E in Hx. exact Hx.
Qed.

Lemma with_eid_skip (df : DataFrame) (before rest : list string)
  (rel pt cons prefix : string) :
  (forall t, In t before -> forall x, ~ usable py_float df (prefix ++ t) rel pt cons x) ->
  _extract_value_polars_with_eid py_float df (before ++ rest)%list rel pt cons prefix
  = _extract_value_polars_with_eid py_float df rest rel pt cons prefix.
Proof.
  induction before as [|t before IH]; intros H; [reflexivity|].
  rewrite <- app_comm_cons, with_eid_step.
  rewrite (proj1 (no_usable_nil df (prefix ++ t) rel pt cons)).
  - apply IH. intros t' Ht'. apply H. now right.
  - apply H. now left.
Qed.

Lemma with_eid_absent (df : DataFrame) (ids : list string) (rel pt cons prefix : string) :
  _extract_value_polars_with_eid py_float df ids rel pt cons prefix = (None, None)
  <-> forall t, In t ids -> forall x, ~ usable py_float df (prefix ++ t) rel pt cons x.
Proof.
  induction ids as [|elem rest IH].
  - split; [intros _ t []|reflexivity].
  - rewrite with_eid_step.
    destruct (normalized_values py_float _) as [|v vs] eqn:E.
    + rewrite IH. split.
      * intros H t [<-|Ht]; [now apply no_usable_nil|now apply H].
      * intros H t Ht. apply H. now right.
    + split; [discriminate|].
      intros H. exfalso. apply (H elem (or_introl eq_refl) v).
      apply usable_iff. rewrite E. now left.
Qed.

Lemma with_eid_paired (df : DataFrame) (ids : list string) (rel pt cons prefix : string) :
  fst (_extract_value_polars_with_eid py_float df ids rel pt cons prefix) = None
  <-> snd (_extract_value_polars_with_eid py_float df ids rel pt cons prefix) = None.
Proof.
  induction ids as [|elem rest IH]; [tauto|].
  rewrite with_eid_step. destruct (normalized_values py_float _); [exact IH|].
  split; discriminate.
Qed.

(** X16.  The resolver tries the candidate tags in order.  For the first tag
    that has a usable value (a row matching tag, period, period kind and
    scope that passes the segment filter, so with a context that is not null
    and is not a segment member, and whose value normalizes) it returns
    that tag with the maximum of the tag's usable values: one of them, which
    none of them exceeds, and which is at least each of them when none is NaN;
    the later candidates play no part in the result.  It returns absent (no
    value, no tag) exactly when no candidate has a usable value; a value is
    never returned without its tag.  The variant without the tag returns the
    same value. *)
Theorem resolver_first_usable_tag :
  forall (df : DataFrame) (ids : list string) (rel pt cons prefix : string),
    (forall before tag after,
        ids = (before ++ tag :: after)%list ->
        (forall t, In t before ->
                   forall x, ~ usable py_float df (prefix ++ t) rel pt cons x) ->
        (exists x, usable py_float df (prefix ++ tag) rel pt cons x) ->
        exists v,
          _extract_value_polars_with_eid py_float df ids rel pt cons prefix
          = (Some v, Some tag)
          /\ usable py_float df (prefix ++ tag) rel pt cons v
          /\ (forall w, usable py_float df (prefix ++ tag) rel pt cons w ->
                        (v <? w)%float = false)
          /\ ((forall w, usable py_float df (prefix ++ tag) rel pt cons w ->
                         is_nan w = false) ->
              forall w, usable py_float df (prefix ++ tag) rel pt cons w ->
                        (w <=? v)%float = true)
          /\ (forall later,
                 _extract_value_polars_with_eid py_float df
                   (before ++ tag :: later)%list rel pt cons prefix
                 = (Some v, Some tag)))
    /\ (_extract_value_polars_with_eid py_float df ids rel pt cons prefix = (None, None)
        <-> forall t, In t ids ->
                      forall x, ~ usable py_float df (prefix ++ t) rel pt cons x)
    /\ (fst (_extract_value_polars_with_eid py_float df ids rel pt cons prefix) = None
        <-> snd (_extract_value_polars_with_eid py_float df ids rel pt cons prefix) = None)
    /\ _extract_value_polars py_float df ids rel pt cons prefix
       = fst (_extract_value_polars_with_eid py_float df ids rel pt cons prefix).
Proof.
  intros df ids rel pt cons prefix.
  split; [|split; [apply with_eid_absent|split; [apply with_eid_paired|apply value_only_fst]]].
  intros before tag after -> Hbefore [x Hx].
  assert (Hstep : forall later,
             _extract_value_polars_with_eid py_float df (before ++ tag :: later)%list
               rel pt cons prefix
             = match normalized_values py_float
                       (List.filter not_segment
                          (List.filter (matches (prefix ++ tag) rel pt cons) df)) with
               | v :: vs => (Some (py_max v vs), Some tag)
               | [] => _extract_value_polars_with_eid py_float df later rel pt cons prefix
               end).
  { intros later. rewrite (with_eid_skip df before _ rel pt cons prefix Hbefore).
    apply with_eid_step. }
  assert (Hall : forall w, usable py_float df (prefix ++ tag) rel pt cons w
                           <-> In w (normalized_values py_float
                                       (List.filter not_segment
                                          (List.filter (matches (prefix ++ tag) rel pt cons) df))))
    by (intros w; apply usable_iff).
  destruct (normalized_values py_float
              (List.filter not_segment (List.filter (matches (prefix ++ tag) rel pt cons) df)))
    as [|v vs] eqn:E.
  { apply Hall in Hx. destruct Hx. }
  exists (py_max v vs). split; [apply Hstep|].
  split; [apply Hall, py_max_in|].
  split; [intros w Hw; apply py_max_upper; now apply Hall|].
  split; [|intros later; apply Hstep].
  intros Hnan w Hw. apply py_max_greatest.
  - intros w' Hw'. apply Hnan. now apply Hall.
  - now apply Hall.
Qed.

End Resolver.

(** ** Company-year extractor *)

Section Extractor.

Variable py_float : string -> option float.


(** The fields of the extracted record, one equation each. *)
Lemma extract_fields (df : DataFrame) (path : string) (meta : TSVMetadata)
  (info : CompanyInfo) :
  let mj := mj_of (extract_from_df py_float df path meta info) in
  let scope := scope_of df in
  rev_t mj = extract_value_with_fallback py_float df ELEMENT_NET_SALES CUR DURATION scope
  /\ rev_t1 mj = extract_value_with_fallback py_float df ELEMENT_NET_SALES PRIOR DURATION scope
  /\ ni_t mj = extract_value_with_fallback py_float df ELEMENT_PROFIT_LOSS CUR DURATION scope
  /\ cfo_t mj = extract_value_with_fallback py_float df ELEMENT_OPERATING_CF CUR DURATION scope
  /\ assets_prev_end mj = extract_value_with_fallback py_float df ELEMENT_ASSETS PRIOR_END INSTANT scope
  /\ ppe_end_t mj = extract_value_with_fallback py_float df ELEMENT_PPE CUR_END INSTANT scope
  /\ ar_end_t_no_e mj = fst (extract_value_with_fallback_and_eid py_float df ELEMENT_REC_BASE CUR_END INSTANT scope)
  /\ ar_end_t1_no_e mj = fst (extract_value_with_fallback_and_eid py_float df ELEMENT_REC_BASE PRIOR_END INSTANT scope)
  /\ eclaims_end_t mj = fst (extract_value_with_fallback_and_eid py_float df ELEMENT_ECLAIMS CUR_END INSTANT scope)
  /\ eclaims_end_t1 mj = fst (extract_value_with_fallback_and_eid py_float df ELEMENT_ECLAIMS PRIOR_END INSTANT scope)
  /\ ar_end_t mj = add_eclaims (ar_end_t_no_e mj) (eclaims_end_t mj)
  /\ ar_end_t1 mj = add_eclaims (ar_end_t1_no_e mj) (eclaims_end_t1 mj)
  /\ is_consolidated mj = Some (check_has_consolidated_data df ELEMENT_NET_SALES)
  /\ fiscal_year mj = meta_fiscal_year meta.
Proof.
  unfold extract_from_df, scope_of, mj_of.
  destruct (extract_value_with_fallback_and_eid py_float df ELEMENT_REC_BASE CUR_END _ _).
  destruct (extract_value_with_fallback_and_eid py_float df ELEMENT_ECLAIMS CUR_END _ _).
  destruct (extract_value_with_fallback_and_eid py_float df ELEMENT_REC_BASE PRIOR_END _ _).
  destruct (extract_value_with_fallback_and_eid py_float df ELEMENT_ECLAIMS PRIOR_END _ _).
  cbn. repeat split; reflexivity.
Qed.

Lemma extract_derived_fields (df : DataFrame) (path : string) (meta : TSVMetadata)
  (info : CompanyInfo) :
  let mj := mj_of (extract_from_df py_float df path meta info) in
  ta_t mj = match ni_t mj, cfo_t mj with
            | Some n, Some c => Some (n - c)%float
            | _, _ => None
            end
  /\ d_rev mj = match rev_t mj, rev_t1 mj with
                | Some a, Some b => Some (a - b)%float
                | _, _ => None
                end
  /\ d_ar mj = match ar_end_t mj, ar_end_t1 mj with
               | Some a, Some b => Some (a - b)%float
               | _, _ => None
               end.
Proof.
  unfold extract_from_df, mj_of.
  destruct (extract_value_with_fallback_and_eid py_float df ELEMENT_REC_BASE CUR_END _ _).
  destruct (extract_value_with_fallback_and_eid py_float df ELEMENT_ECLAIMS CUR_END _ _).
  destruct (extract_value_with_fallback_and_eid py_float df ELEMENT_REC_BASE PRIOR_END _ _).
  destruct (extract_value_with_fallback_and_eid py_float df ELEMENT_ECLAIMS PRIOR_END _ _).
  cbn. repeat split; reflexivity.
Qed.

Lemma extract_rec_fields (df : DataFrame) (path : string) (meta : TSVMetadata)
  (info : CompanyInfo) :
  let x := extract_from_df py_float df path meta info in
  let scope := scope_of df in
  let cur_base := extract_value_with_fallback_and_eid py_float df ELEMENT_REC_BASE CUR_END INSTANT scope in
  let cur_claims := extract_value_with_fallback_and_eid py_float df ELEMENT_ECLAIMS CUR_END INSTANT scope in
  let prior_base := extract_value_with_fallback_and_eid py_float df ELEMENT_REC_BASE PRIOR_END INSTANT scope in
  let prior_claims := extract_value_with_fallback_and_eid py_float df ELEMENT_ECLAIMS PRIOR_END INSTANT scope in
  rec_rule (mj_of x) = Some (if is_some (fst cur_base) then "PLUS_E" else "NO_BASE")
  /\ rec_used_base_eid (mj_of x) = Some (or_str (snd cur_base) "")
  /\ rec_used_eclaims_eid (mj_of x) = Some (or_str (snd cur_claims) "")
  /\ rd_rec_rule (debug_of x) = rec_rule (mj_of x)
  /\ rec_used_base_eid_end_t (debug_of x) = Some (or_str (snd cur_base) "")
  /\ rec_used_base_eid_end_t1 (debug_of x) = Some (or_str (snd prior_base) "")
  /\ rec_used_eclaims_eid_end_t (debug_of x) = Some (or_str (snd cur_claims) "")
  /\ rec_used_eclaims_eid_end_t1 (debug_of x) = Some (or_str (snd prior_claims) "").
Proof.
  unfold extract_from_df, scope_of, mj_of, debug_of.
  destruct (extract_value_with_fallback_and_eid py_float df ELEMENT_REC_BASE CUR_END _ _).
  destruct (extract_value_with_fallback_and_eid py_float df ELEMENT_ECLAIMS CUR_END _ _).
  destruct (extract_value_with_fallback_and_eid py_float df ELEMENT_REC_BASE PRIOR_END _ _).
  destruct (extract_value_with_fallback_and_eid py_float df ELEMENT_ECLAIMS PRIOR_END _ _).
  cbn. repeat split; reflexivity.
Qed.

Lemma note_missing_nil {A : Type} (f : option A) (text : string) (rs : list string) :
  note_missing f text rs = [] <-> is_some f = true /\ rs = [].
Proof.
  destruct f; cbn; [intuition|].
  split; [|intros [? _]; discriminate].
  intros H. destruct rs; discriminate.
Qed.

(** The reasons are empty exactly when every required field is present. *)
Lemma reasons_nil_iff (df : DataFrame) (path : string) (meta : TSVMetadata)
  (info : CompanyInfo) :
  reasons_of (extract_from_df py_float df path meta info) = []
  <-> required_present (mj_of (extract_from_df py_float df path meta info)) = true.
Proof.
  unfold extract_from_df, mj_of, reasons_of, required_present.
  destruct (extract_value_with_fallback_and_eid py_float df ELEMENT_REC_BASE CUR_END _ _).
  destruct (extract_value_with_fallback_and_eid py_float df ELEMENT_ECLAIMS CUR_END _ _).
  destruct (extract_value_with_fallback_and_eid py_float df ELEMENT_REC_BASE PRIOR_END _ _).
  destruct (extract_value_with_fallback_and_eid py_float df ELEMENT_ECLAIMS PRIOR_END _ _).
  cbn [fst snd rev_t rev_t1 ni_t cfo_t assets_prev_end ar_end_t ar_end_t1 ppe_end_t
       ta_t d_rev d_ar].
  rewrite !note_missing_nil, !andb_true_iff. tauto.
Qed.

Lemma neg_zero_inv (b : float) : b <> (-0)%float -> Prim2SF b <> S754_zero true.
Proof.
  intros H E. apply H. apply Prim2SF_inj. rewrite E. reflexivity.
Qed.

Lemma add_eclaims_synthesized (base claims : option float) :
  synthesized base claims (add_eclaims base claims).
Proof.
  unfold synthesized, add_eclaims. repeat split.
  - now intros ->.
  - intros b -> ->. exists (b + 0)%float. repeat split.
    + apply FloatFacts.add_zero_same.
    + intros H. apply FloatFacts.add_zero_exact. now apply neg_zero_inv.
  - intros b c -> ->. destruct (c =? 0)%float eqn:E.
    + exists (b + 0)%float. repeat split; [|discriminate].
      now apply FloatFacts.add_zero_like.
    + exists (b + c)%float. repeat split. apply FloatFacts.same_number_refl.
  - destruct base; [discriminate|]. intros H. now contradiction H.
Qed.

(** C3.  At the current and at the prior period end alike, the synthesized
    receivables are the rule applied to the resolved base and the resolved
    electronic claims: absent when the base does not extract_value_with_fallback py_float, whatever the
    claims; the base when the claims are absent; base plus claims when both
    extract_value_with_fallback py_float; and never present without the base. *)
Theorem receivables_synthesis_rule :
  forall (df : DataFrame) (path : string) (meta : TSVMetadata) (info : CompanyInfo),
    let mj := mj_of (extract_from_df py_float df path meta info) in
    ar_end_t_no_e mj
    = fst (extract_value_with_fallback_and_eid py_float df ELEMENT_REC_BASE CUR_END INSTANT (scope_of df))
    /\ eclaims_end_t mj
       = fst (extract_value_with_fallback_and_eid py_float df ELEMENT_ECLAIMS CUR_END INSTANT (scope_of df))
    /\ synthesized (ar_end_t_no_e mj) (eclaims_end_t mj) (ar_end_t mj)
    /\ ar_end_t1_no_e mj
       = fst (extract_value_with_fallback_and_eid py_float df ELEMENT_REC_BASE PRIOR_END INSTANT (scope_of df))
    /\ eclaims_end_t1 mj
       = fst (extract_value_with_fallback_and_eid py_float df ELEMENT_ECLAIMS PRIOR_END INSTANT (scope_of df))
    /\ synthesized (ar_end_t1_no_e mj) (eclaims_end_t1 mj) (ar_end_t1 mj).
Proof.
  intros df path meta info mj.
  destruct (extract_fields df path meta info)
    as (_ & _ & _ & _ & _ & _ & H1 & H2 & H3 & H4 & H5 & H6 & _).
  fold mj in H1, H2, H3, H4, H5, H6.
  split; [exact H1|]. split; [exact H3|].
  split; [rewrite H5; apply add_eclaims_synthesized|].
  split; [exact H2|]. split; [exact H4|].
  rewrite H6. apply add_eclaims_synthesized.
Qed.

Lemma derived_match (a b : option float) :
  derived a b (match a, b with
               | Some x, Some y => Some (x - y)%float
               | _, _ => None
               end).
Proof.
  unfold derived. destruct a as [x|], b as [y|]; split.
  all: try (intros x' y' H1 H2; congruence).
  all: split; try (intros [H1 H2]); try congruence; intros H; try (now contradiction H).
  split; discriminate.
Qed.

(** C4.  Each derived metric is present exactly when both of its operands
    are, and is then their difference: ta_t = ni_t - cfo_t,
    d_rev = rev_t - rev_t1, d_ar = ar_end_t - ar_end_t1. *)
Theorem derived_metrics_rule :
  forall (df : DataFrame) (path : string) (meta : TSVMetadata) (info : CompanyInfo),
    let mj := mj_of (extract_from_df py_float df path meta info) in
    derived (ni_t mj) (cfo_t mj) (ta_t mj)
    /\ derived (rev_t mj) (rev_t1 mj) (d_rev mj)
    /\ derived (ar_end_t mj) (ar_end_t1 mj) (d_ar mj).
Proof.
  intros df path meta info mj.
  destruct (extract_derived_fields df path meta info) as (H1 & H2 & H3).
  fold mj in H1, H2, H3. rewrite H1, H2, H3.
  split; [|split]; apply derived_match.
Qed.

End Extractor.

(** ** Scope selection *)

Section Scope.

Variable py_float : string -> option float.

Lemma value_from_scope (df : DataFrame) (ids : list string)
  (rel pt cons prefix : string) (v : float) :
  _extract_value_polars py_float df ids rel pt cons prefix = Some v ->
  from_scope py_float df cons v.
Proof.
  induction ids as [|elem rest IH]; [discriminate|].
  rewrite value_only_step.
  destruct (normalized_values py_float _) as [|v0 vs] eqn:E; [exact IH|].
  intros [= <-].
  assert (Hu : usable py_float df (prefix ++ elem) rel pt cons (py_max v0 vs)).
  { apply usable_iff. rewrite E. apply py_max_in. }
  destruct Hu as (r & Hin & _ & _ & _ & Hc & _ & Hv).
  exists r. auto.
Qed.

Lemma resolved_from_scope (df : DataFrame) (ids : list string)
  (rel pt cons : string) (v : float) :
  extract_value_with_fallback py_float df ids rel pt cons = Some v ->
  from_scope py_float df cons v.
Proof. apply value_from_scope. Qed.

Lemma resolved_eid_from_scope (df : DataFrame) (ids : list string)
  (rel pt cons : string) (v : float) :
  fst (extract_value_with_fallback_and_eid py_float df ids rel pt cons) = Some v ->
  from_scope py_float df cons v.
Proof.
  unfold extract_value_with_fallback_and_eid. rewrite <- value_only_fst.
  apply value_from_scope.
Qed.

Lemma filter_nil_iff {A : Type} (f : A -> bool) (l : list A) :
  List.filter f l = [] <-> forall x, In x l -> f x = false.
Proof.
  induction l as [|a l IH]; cbn.
  - split; [intros _ x []|reflexivity].
  - destruct (f a) eqn:E.
    + split; [discriminate|]. intros H. rewrite (H a) in E; [discriminate|now left].
    + rewrite IH. split.
      * intros H x [<-|Hx]; [exact E|now apply H].
      * intros H x Hx. apply H. now right.
Qed.

Lemma check_has_consolidated_data_spec (df : DataFrame) (ids : list string) :
  check_has_consolidated_data df ids = true
  <-> exists r elem, In r df /\ In elem ids /\ cons_type r = CONSOLIDATED
                     /\ relative_year r = CUR /\ elem_id r = JPPFS ++ elem.
Proof.
  unfold check_has_consolidated_data.
  destruct (List.filter (fun r => String.eqb (cons_type r) CONSOLIDATED) df)
    as [|r0 rs] eqn:E.
  - cbn. split; [discriminate|].
    intros (r & elem & Hin & _ & Hc & _).
    rewrite filter_nil_iff in E. specialize (E r Hin). cbn in E.
    rewrite Hc, String.eqb_refl in E. discriminate.
  - cbn [length Nat.eqb]. rewrite existsb_exists. split.
    + intros (elem & Hel & H).
      destruct (List.filter _ (r0 :: rs)) as [|r rs'] eqn:E2; [discriminate|].
      assert (Hr : In r (List.filter
                   (fun r => String.eqb (elem_id r) (JPPFS ++ elem)
                             && String.eqb (relative_year r) CUR) (r0 :: rs)))
        by (rewrite E2; now left).
      apply filter_In in Hr as [Hr Hm]. rewrite <- E in Hr.
      apply filter_In in Hr as [Hr Hc].
      apply andb_true_iff in Hm as [H1 H2].
      apply String.eqb_eq in H1, H2, Hc. exists r, elem. auto.
    + intros (r & elem & Hin & Hel & Hc & Hy & Hid). exists elem. split; [exact Hel|].
      assert (Hr : In r (List.filter
                   (fun r => String.eqb (elem_id r) (JPPFS ++ elem)
                             && String.eqb (relative_year r) CUR) (r0 :: rs))).
      { apply filter_In. split.
        - rewrite <- E. apply filter_In. split; [exact Hin|].
          now apply String.eqb_eq.
        - rewrite Hid, Hy, !String.eqb_refl. reflexivity. }
      destruct (List.filter _ (r0 :: rs)); [destruct Hr|reflexivity].
Qed.

Lemma extract_flags (df : DataFrame) (path : string) (meta : TSVMetadata)
  (info : CompanyInfo) :
  let x := extract_from_df py_float df path meta info in
  rd_is_consolidated (debug_of x) = is_consolidated (mj_of x).
Proof.
  unfold extract_from_df, mj_of, debug_of.
  destruct (extract_value_with_fallback_and_eid py_float df ELEMENT_REC_BASE CUR_END _ _).
  destruct (extract_value_with_fallback_and_eid py_float df ELEMENT_ECLAIMS CUR_END _ _).
  destruct (extract_value_with_fallback_and_eid py_float df ELEMENT_REC_BASE PRIOR_END _ _).
  destruct (extract_value_with_fallback_and_eid py_float df ELEMENT_ECLAIMS PRIOR_END _ _).
  reflexivity.
Qed.

(** C8.  The scope of a filing is a function of its table alone:
    consolidated when the table has a consolidated row of a net-sales tag for
    the current period, non-consolidated otherwise.  The record is flagged
    with it, every field is the resolver's answer at that one scope, and every
    resolved value is the value of a row of that scope. *)
Theorem single_scope_per_filing :
  forall (df : DataFrame) (path : string) (meta : TSVMetadata) (info : CompanyInfo),
    let x := extract_from_df py_float df path meta info in
    let mj := mj_of x in
    let scope := scope_of df in
    (scope = CONSOLIDATED
     <-> exists r, In r df /\ cons_type r = CONSOLIDATED /\ relative_year r = CUR
                   /\ (elem_id r = "jppfs_cor:NetSales"
                       \/ elem_id r = "jppfs_cor:NetSalesOfCompletedConstructionContracts"))
    /\ (scope = CONSOLIDATED \/ scope = NON_CONSOLIDATED)
    /\ is_consolidated mj = Some (String.eqb scope CONSOLIDATED)
    /\ rd_is_consolidated (debug_of x) = is_consolidated mj
    /\ rev_t mj = extract_value_with_fallback py_float df ELEMENT_NET_SALES CUR DURATION scope
    /\ rev_t1 mj = extract_value_with_fallback py_float df ELEMENT_NET_SALES PRIOR DURATION scope
    /\ ni_t mj = extract_value_with_fallback py_float df ELEMENT_PROFIT_LOSS CUR DURATION scope
    /\ cfo_t mj = extract_value_with_fallback py_float df ELEMENT_OPERATING_CF CUR DURATION scope
    /\ assets_prev_end mj
       = extract_value_with_fallback py_float df ELEMENT_ASSETS PRIOR_END INSTANT scope
    /\ ppe_end_t mj = extract_value_with_fallback py_float df ELEMENT_PPE CUR_END INSTANT scope
    /\ ar_end_t_no_e mj
       = fst (extract_value_with_fallback_and_eid py_float df ELEMENT_REC_BASE CUR_END INSTANT scope)
    /\ ar_end_t1_no_e mj
       = fst (extract_value_with_fallback_and_eid py_float df ELEMENT_REC_BASE PRIOR_END INSTANT scope)
    /\ eclaims_end_t mj
       = fst (extract_value_with_fallback_and_eid py_float df ELEMENT_ECLAIMS CUR_END INSTANT scope)
    /\ eclaims_end_t1 mj
       = fst (extract_value_with_fallback_and_eid py_float df ELEMENT_ECLAIMS PRIOR_END INSTANT scope)
    /\ Forall (fun field : MJInput -> option float =>
                 forall v, field mj = Some v -> from_scope py_float df scope v)
              [ rev_t; rev_t1; ni_t; cfo_t; assets_prev_end; ppe_end_t;
                ar_end_t_no_e; ar_end_t1_no_e; eclaims_end_t; eclaims_end_t1 ].
Proof.
  intros df path meta info x mj scope.
  destruct (extract_fields py_float df path meta info)
    as (F1 & F2 & F3 & F4 & F5 & F6 & F7 & F8 & F9 & F10 & _ & _ & F13 & _).
  fold x in F1, F2, F3, F4, F5, F6, F7, F8, F9, F10, F13.
  fold mj in F1, F2, F3, F4, F5, F6, F7, F8, F9, F10, F13.
  fold scope in F1, F2, F3, F4, F5, F6, F7, F8, F9, F10.
  split.
  { unfold scope, scope_of.
    destruct (check_has_consolidated_data df ELEMENT_NET_SALES) eqn:E.
    - split; [intros _|reflexivity].
      apply check_has_consolidated_data_spec in E
        as (r & elem & Hin & Hel & Hc & Hy & Hid).
      exists r. repeat (split; [assumption|]).
      destruct Hel as [<-|[<-|[]]]; [left|right]; exact Hid.
    - split; [discriminate|]. intros (r & Hin & Hc & Hy & Hid). exfalso.
      assert (check_has_consolidated_data df ELEMENT_NET_SALES = true); [|congruence].
      apply check_has_consolidated_data_spec.
      destruct Hid as [Hid|Hid].
      + exists r, "NetSales". repeat split; auto. now left.
      + exists r, "NetSalesOfCompletedConstructionContracts". repeat split; auto.
        right. now left. }
  split. { unfold scope, scope_of. destruct (check_has_consolidated_data df _); auto. }
  split. { rewrite F13. unfold scope, scope_of.
           destruct (check_has_consolidated_data df _); reflexivity. }
  split; [apply extract_flags|].
  do 10 (split; [assumption|]).
  repeat constructor; intros v Hv.
  all: try (eapply resolved_from_scope; rewrite <- Hv; symmetry; eassumption).
  all: eapply resolved_eid_from_scope; rewrite <- Hv; symmetry; eassumption.
Qed.

End Scope.

Section RecRule.

Variable py_float : string -> option float.

(** The receivables rule and the matched tags of one extraction. *)
Lemma rec_rule_of_record :
  forall (df : DataFrame) (path : string) (meta : TSVMetadata) (info : CompanyInfo),
    let x := extract_from_df py_float df path meta info in
    let scope := scope_of df in
    let cur_base :=
      extract_value_with_fallback_and_eid py_float df ELEMENT_REC_BASE CUR_END INSTANT scope in
    let cur_claims :=
      extract_value_with_fallback_and_eid py_float df ELEMENT_ECLAIMS CUR_END INSTANT scope in
    let prior_base :=
      extract_value_with_fallback_and_eid py_float df ELEMENT_REC_BASE PRIOR_END INSTANT scope in
    let prior_claims :=
      extract_value_with_fallback_and_eid py_float df ELEMENT_ECLAIMS PRIOR_END INSTANT scope in
    (rec_rule (mj_of x) = Some "PLUS_E" <-> fst cur_base <> None)
    /\ (rec_rule (mj_of x) = Some "NO_BASE" <-> fst cur_base = None)
    /\ rec_used_base_eid (mj_of x) = Some (or_str (snd cur_base) "")
    /\ rec_used_eclaims_eid (mj_of x) = Some (or_str (snd cur_claims) "")
    /\ rd_rec_rule (debug_of x) = rec_rule (mj_of x)
    /\ rec_used_base_eid_end_t (debug_of x) = Some (or_str (snd cur_base) "")
    /\ rec_used_base_eid_end_t1 (debug_of x) = Some (or_str (snd prior_base) "")
    /\ rec_used_eclaims_eid_end_t (debug_of x) = Some (or_str (snd cur_claims) "")
    /\ rec_used_eclaims_eid_end_t1 (debug_of x) = Some (or_str (snd prior_claims) "")
    /\ (reasons_of x = [] -> rec_rule (mj_of x) = Some "PLUS_E").
Proof.
  intros df path meta info x scope cur_base cur_claims prior_base prior_claims.
  destruct (extract_rec_fields py_float df path meta info)
    as (R1 & R2 & R3 & R4 & R5 & R6 & R7 & R8).
  fold x scope cur_base cur_claims prior_base prior_claims in R1, R2, R3, R4, R5, R6, R7, R8.
  assert (Hplus : rec_rule (mj_of x) = Some "PLUS_E" <-> fst cur_base <> None).
  { rewrite R1. destruct (fst cur_base); cbn; split; congruence. }
  split; [exact Hplus|].
  split. { rewrite R1. destruct (fst cur_base); cbn; split; congruence. }
  do 7 (split; [assumption|]).
  intros Hnil. apply Hplus.
  apply reasons_nil_iff in Hnil. fold x in Hnil.
  unfold required_present in Hnil. rewrite !andb_true_iff in Hnil.
  destruct Hnil as ((((((((((_ & _) & _) & _) & _) & Har) & _) & _) & _) & _) & _).
  destruct (extract_fields py_float df path meta info)
    as (_ & _ & _ & _ & _ & _ & F7 & _ & _ & _ & F11 & _).
  fold x in F7, F11. fold scope in F7. fold cur_base in F7.
  rewrite F11, F7 in Har. destruct (fst cur_base); [discriminate|]. discriminate.
Qed.

End RecRule.

(** ** Filing selector *)

Module Selector.

Lemma str_compare_eq (a b : string) : str_compare a b = Eq -> a = b.
Proof.
  unfold str_compare.
  destruct (String_as_OT.compare_spec a b) as [E| |]; [intros _; exact E| |]; discriminate.
Qed.

Lemma str_lt_irrefl (a : string) : String_as_OT.lt a a -> False.
Proof. apply StrictOrder_Irreflexive. Qed.

Lemma str_lt_asym (a b : string) : String_as_OT.lt a b -> String_as_OT.lt b a -> False.
Proof. intros H1 H2. apply (str_lt_irrefl a). etransitivity; eassumption. Qed.

Lemma str_compare_refl (a : string) : str_compare a a = Eq.
Proof.
  unfold str_compare. destruct (String_as_OT.compare_spec a a) as [_|H|H];
    [reflexivity| |]; destruct (str_lt_irrefl _ H).
Qed.

Lemma str_compare_gt (a b : string) : str_compare a b = Gt <-> str_compare b a = Lt.
Proof.
  unfold str_compare.
  destruct (String_as_OT.compare_spec a b) as [E|H|H],
           (String_as_OT.compare_spec b a) as [E'|H'|H'];
    try (split; congruence); exfalso; unfold String_as_OT.eq in *; subst.
  all: try (now apply (str_lt_irrefl b)).
  all: try (now apply (str_lt_irrefl a)).
  all: now apply (str_lt_asym a b).
Qed.

Lemma str_compare_trans (a b c : string) :
  str_compare a b = Lt -> str_compare b c = Lt -> str_compare a c = Lt.
Proof.
  unfold str_compare. intros H1 H2.
  change (String_as_OT.lt a c). change (String_as_OT.lt a b) in H1.
  change (String_as_OT.lt b c) in H2. etransitivity; eassumption.
Qed.

Lemma key_compare_eq (k1 k2 : string * string) : key_compare k1 k2 = Eq -> k1 = k2.
Proof.
  destruct k1 as [a1 b1], k2 as [a2 b2]. unfold key_compare. cbn [fst snd].
  destruct (str_compare a1 a2) eqn:E; try discriminate.
  intros H. apply str_compare_eq in E, H. congruence.
Qed.

Lemma key_compare_refl (k : string * string) : key_compare k k = Eq.
Proof. unfold key_compare. now rewrite !str_compare_refl. Qed.

Lemma key_compare_gt (k1 k2 : string * string) :
  key_compare k1 k2 = Gt <-> key_compare k2 k1 = Lt.
Proof.
  destruct k1 as [a1 b1], k2 as [a2 b2]. unfold key_compare. cbn [fst snd].
  destruct (str_compare a1 a2) eqn:E.
  - apply str_compare_eq in E. subst. rewrite str_compare_refl. apply str_compare_gt.
  - destruct (str_compare a2 a1) eqn:E'; try (split; congruence).
    + apply str_compare_eq in E'. subst. rewrite str_compare_refl in E. discriminate.
    + apply str_compare_gt in E. congruence.
  - apply str_compare_gt in E. rewrite E. tauto.
Qed.

Lemma key_compare_trans (k1 k2 k3 : string * string) :
  key_compare k1 k2 = Lt -> key_compare k2 k3 = Lt -> key_compare k1 k3 = Lt.
Proof.
  destruct k1 as [a1 b1], k2 as [a2 b2], k3 as [a3 b3]. unfold key_compare. cbn [fst snd].
  destruct (str_compare a1 a2) eqn:E12; try discriminate;
    destruct (str_compare a2 a3) eqn:E23; try discriminate; intros H1 H2.
  - apply str_compare_eq in E12, E23. subst. rewrite str_compare_refl.
    eapply str_compare_trans; eassumption.
  - apply str_compare_eq in E12. subst. now rewrite E23.
  - apply str_compare_eq in E23. subst. now rewrite E12.
  - now rewrite (str_compare_trans _ _ _ E12 E23).
Qed.

Lemma key_ltb_irrefl (k : string * string) : key_ltb k k = false.
Proof. unfold key_ltb. now rewrite key_compare_refl. Qed.

Lemma key_ltb_asym (k1 k2 : string * string) :
  key_ltb k1 k2 = true -> key_ltb k2 k1 = false.
Proof.
  unfold key_ltb. destruct (key_compare k1 k2) eqn:E; try discriminate. intros _.
  apply key_compare_gt in E. now rewrite E.
Qed.

(** [k2 <= k1] and [k1 < k3] give [k2 < k3]. *)
Lemma key_le_lt_trans (k1 k2 k3 : string * string) :
  key_ltb k1 k2 = false -> key_ltb k1 k3 = true -> key_ltb k2 k3 = true.
Proof.
  unfold key_ltb. intros H12 H13.
  destruct (key_compare k1 k3) eqn:E13; try discriminate.
  destruct (key_compare k1 k2) eqn:E12; try discriminate.
  - apply key_compare_eq in E12. subst. now rewrite E13.
  - apply key_compare_gt in E12. now rewrite (key_compare_trans _ _ _ E12 E13).
Qed.

Lemma key_le_ltb (k1 k2 : string * string) : key_le k1 k2 <-> key_ltb k2 k1 = false.
Proof.
  unfold key_le, key_ltb. split.
  - intros H. destruct (key_compare k2 k1) eqn:E; try reflexivity.
    apply key_compare_gt in E. contradiction.
  - intros H E. apply key_compare_gt in E. rewrite E in H. discriminate.
Qed.

Lemma key_le_antisym (k1 k2 : string * string) : key_le k1 k2 -> key_le k2 k1 -> k1 = k2.
Proof.
  unfold key_le. intros H1 H2. apply key_compare_eq.
  destruct (key_compare k1 k2) eqn:E; [reflexivity| |contradiction].
  exfalso. apply H2. now apply key_compare_gt.
Qed.

Lemma insert_desc_perm (x : TSVMetadata) (l : list TSVMetadata) :
  Permutation (insert_desc x l) (x :: l).
Proof.
  induction l as [|y ys IH]; cbn [insert_desc]; [reflexivity|].
  destruct (key_ltb (sort_key x) (sort_key y)); [|reflexivity].
  rewrite IH. apply perm_swap.
Qed.

Lemma sort_desc_perm (l : list TSVMetadata) : Permutation (sort_desc l) l.
Proof.
  induction l as [|x l IH]; cbn [sort_desc fold_right]; [reflexivity|].
  rewrite insert_desc_perm. now constructor.
Qed.

Lemma insert_desc_head (x : TSVMetadata) (l : list TSVMetadata) :
  head_latest l -> head_latest (insert_desc x l).
Proof.
  destruct l as [|y ys]; cbn [insert_desc head_latest].
  - intros _ m [<-|[]]. apply key_ltb_irrefl.
  - intros H. destruct (key_ltb (sort_key x) (sort_key y)) eqn:E; cbn [head_latest].
    + intros m Hm. destruct Hm as [<-|Hm]; [apply key_ltb_irrefl|].
      apply (Permutation_in _ (insert_desc_perm x ys)) in Hm.
      destruct Hm as [<-|Hm]; [now apply key_ltb_asym|]. apply H. now right.
    + intros m [<-|Hm]; [apply key_ltb_irrefl|].
      destruct (key_ltb (sort_key x) (sort_key m)) eqn:E'; [|reflexivity].
      rewrite <- (H m Hm). symmetry. eapply key_le_lt_trans; eassumption.
Qed.

Lemma sort_desc_head (l : list TSVMetadata) : head_latest (sort_desc l).
Proof.
  induction l as [|x l IH]; cbn [sort_desc fold_right]; [exact I|].
  now apply insert_desc_head.
Qed.

Lemma sort_desc_latest (l : list TSVMetadata) (c : TSVMetadata) (rest : list TSVMetadata) :
  sort_desc l = c :: rest ->
  forall m, In m l -> submitted_before_or_with m c.
Proof.
  intros E m Hm. apply key_le_ltb.
  pose proof (sort_desc_head l) as H. rewrite E in H. apply H.
  rewrite <- E. apply (Permutation_in _ (Permutation_sym (sort_desc_perm l))). exact Hm.
Qed.

Lemma same_path_same_filing (l : list TSVMetadata) (a b : TSVMetadata) :
  List.NoDup (map tsv_path l) -> In a l -> In b l -> tsv_path a = tsv_path b -> a = b.
Proof.
  induction l as [|x l IH]; cbn [map]; intros Hnd Ha Hb E; [destruct Ha|].
  inversion Hnd as [|? ? Hx Hnd']; subst.
  destruct Ha as [<-|Ha], Hb as [<-|Hb]; auto.
  - exfalso. apply Hx. rewrite E. now apply in_map.
  - exfalso. apply Hx. rewrite <- E. now apply in_map.
Qed.

(** A filing of [l] that is latest in [l] is the only such one. *)
Lemma latest_unique (l : list TSVMetadata) (a b : TSVMetadata) :
  List.NoDup (map tsv_path l) -> In a l -> In b l ->
  submitted_before_or_with a b -> submitted_before_or_with b a -> a = b.
Proof.
  intros Hnd Ha Hb H1 H2. apply (same_path_same_filing l); auto.
  pose proof (key_le_antisym _ _ H1 H2) as E. unfold sort_key in E. congruence.
Qed.

Lemma select_many (m1 m2 : TSVMetadata) (ms : list TSVMetadata) (code : string) (fy : Z) :
  exists chosen skipped,
    sort_desc (m1 :: m2 :: ms) = chosen :: skipped
    /\ select_best_tsv (m1 :: m2 :: ms) code fy
       = (Some chosen, map (duplicate_entry code fy chosen) skipped).
Proof.
  unfold select_best_tsv.
  destruct (sort_desc (m1 :: m2 :: ms)) as [|c rest] eqn:E.
  - exfalso. pose proof (sort_desc_perm (m1 :: m2 :: ms)) as P. rewrite E in P.
    apply Permutation_nil in P. discriminate.
  - exists c, rest. split; reflexivity.
Qed.

Lemma select_chosen_in (metas : list TSVMetadata) (code : string) (fy : Z)
  (c : TSVMetadata) :
  fst (select_best_tsv metas code fy) = Some c ->
  In c metas /\ forall m, In m metas -> submitted_before_or_with m c.
Proof.
  destruct metas as [|m1 [|m2 ms]]; [discriminate| |].
  - cbn [select_best_tsv fst]. intros [= <-]. split; [now left|]. intros m [<-|[]].
    apply key_le_ltb, key_ltb_irrefl.
  - destruct (select_many m1 m2 ms code fy) as (chosen & skipped & E & ->).
    cbn [fst]. intros [= <-]. split.
    + apply (Permutation_in _ (sort_desc_perm (m1 :: m2 :: ms))). rewrite E. now left.
    + eapply sort_desc_latest; eassumption.
Qed.

Lemma select_none (metas : list TSVMetadata) (code : string) (fy : Z) :
  fst (select_best_tsv metas code fy) = None <-> metas = [].
Proof.
  destruct metas as [|m1 [|m2 ms]]; [cbn; tauto| |].
  - cbn. split; discriminate.
  - destruct (select_many m1 m2 ms code fy) as (chosen & skipped & E & ->).
    split; discriminate.
Qed.

Lemma empty_is_least (s : string) : s <> "" -> str_compare "" s = Lt.
Proof. destruct s; [congruence|reflexivity]. Qed.

Lemma sorted_last (L : list TSVMetadata) :
  StronglySorted submitted_before_or_with L -> L <> [] ->
  exists init z, L = (init ++ [z])%list
                 /\ forall m, In m L -> submitted_before_or_with m z.
Proof.
  induction 1 as [|a l Hl IH Hall]; [congruence|]. intros _.
  destruct l as [|b l'].
  - exists [], a. split; [reflexivity|]. intros m [<-|[]].
    apply key_le_ltb, key_ltb_irrefl.
  - destruct IH as (init & z & E & Hz); [discriminate|].
    exists (a :: init), z. split; [cbn; now rewrite E|].
    intros m [<-|Hm]; [|now apply Hz].
    rewrite List.Forall_forall in Hall. apply Hall. rewrite E. apply in_or_app. right. now left.
Qed.

End Selector.

(** C6.  With two or more eligible filings, the selector returns one filing
    and logs every other filing once: the selected filing followed by the
    logged ones is a rearrangement of the input.  The selected filing is last
    in the ascending order by (submission timestamp, path): no filing has a
    later timestamp, a filing without a timestamp comes before every filing
    with one, and, the paths being distinct, every ascending arrangement of
    the input ends with the selected filing, which is not among the logged
    ones. *)
Theorem select_best_tsv_latest :
  forall (metas : list TSVMetadata) (code : string) (fy : Z),
    (2 <= length metas)%nat ->
    exists chosen skipped,
      select_best_tsv metas code fy
      = (Some chosen, map (duplicate_entry code fy chosen) skipped)
      /\ Permutation (chosen :: skipped) metas
      /\ length (snd (select_best_tsv metas code fy)) = (length metas - 1)%nat
      /\ (forall m, In m metas -> submitted_before_or_with m chosen)
      /\ (forall m, In m metas ->
            str_compare (or_str (submit_datetime m) "")
                        (or_str (submit_datetime chosen) "") <> Gt)
      /\ (forall a b, has_timestamp a = false -> has_timestamp b = true ->
            key_compare (sort_key a) (sort_key b) = Lt)
      /\ (List.NoDup (map tsv_path metas) ->
          (forall L, Permutation L metas ->
                     StronglySorted submitted_before_or_with L ->
                     exists init, L = (init ++ [chosen])%list)
          /\ ~ In chosen skipped /\ List.NoDup skipped).
Proof.
  intros metas code fy Hlen.
  destruct metas as [|m1 [|m2 ms]]; cbn [length] in Hlen; try lia.
  destruct (Selector.select_many m1 m2 ms code fy) as (chosen & skipped & E & Hsel).
  exists chosen, skipped.
  assert (P : Permutation (chosen :: skipped) (m1 :: m2 :: ms))
    by (rewrite <- E; apply Selector.sort_desc_perm).
  assert (Hlatest : forall m, In m (m1 :: m2 :: ms) -> submitted_before_or_with m chosen)
    by (eapply Selector.sort_desc_latest; exact E).
  split; [exact Hsel|]. split; [exact P|].
  split.
  { rewrite Hsel. cbn [snd]. rewrite length_map.
    apply Permutation_length in P. cbn [length] in P |- *. lia. }
  split; [exact Hlatest|].
  split.
  { intros m Hm H. apply (Hlatest m Hm). unfold key_compare, sort_key. cbn [fst snd].
    now rewrite H. }
  split.
  { intros a b Ha Hb. unfold has_timestamp in Ha, Hb.
    apply negb_false_iff, String.eqb_eq in Ha. apply negb_true_iff, String.eqb_neq in Hb.
    unfold key_compare, sort_key. cbn [fst snd]. rewrite Ha.
    now rewrite (Selector.empty_is_least _ Hb). }
  intros Hnd. split.
  - intros L PL HL.
    destruct (Selector.sorted_last L HL) as (init & z & EL & Hz).
    { intros ->. apply Permutation_nil in PL. discriminate. }
    exists init. rewrite EL. f_equal. f_equal.
    assert (Hzin : In z (m1 :: m2 :: ms)).
    { apply (Permutation_in _ PL). rewrite EL. apply in_or_app. right. now left. }
    assert (Hcin : In chosen (m1 :: m2 :: ms))
      by (apply (Permutation_in _ P); now left).
    apply (Selector.latest_unique (m1 :: m2 :: ms)); auto.
    apply Hz. apply (Permutation_in _ (Permutation_sym PL)). exact Hcin.
  - assert (Hnd' : List.NoDup (chosen :: skipped)).
    { apply (Permutation_NoDup (Permutation_sym P)).
      eapply NoDup_map_inv. exact Hnd. }
    inversion Hnd'; subst. split; assumption.
Qed.

(** C6 on two filings submitted at T1 < T2. *)
Lemma select_best_tsv_latest_two_filings :
  exists chosen skipped,
    select_best_tsv
      [sample_meta "annual/E00001/S100AAAA.tsv" 2015 (Some "2016-06-28");
       sample_meta "annual/E00001/S100BBBB.tsv" 2015 (Some "2016-09-01")]
      "E00001" 2015
    = (Some chosen, map (duplicate_entry "E00001" 2015 chosen) skipped)
    /\ Permutation (chosen :: skipped)
         [sample_meta "annual/E00001/S100AAAA.tsv" 2015 (Some "2016-06-28");
          sample_meta "annual/E00001/S100BBBB.tsv" 2015 (Some "2016-09-01")].
Proof.
  destruct (select_best_tsv_latest
              [sample_meta "annual/E00001/S100AAAA.tsv" 2015 (Some "2016-06-28");
               sample_meta "annual/E00001/S100BBBB.tsv" 2015 (Some "2016-09-01")]
              "E00001" 2015 ltac:(cbn; lia))
    as (chosen & skipped & Hsel & P & _).
  exists chosen, skipped. split; assumption.
Defined.

(** The filing of T2 is selected and the log names the filing of T1. *)
Example select_best_tsv_two_filings_run :
  let r := select_best_tsv
             [sample_meta "annual/E00001/S100AAAA.tsv" 2015 (Some "2016-06-28");
              sample_meta "annual/E00001/S100BBBB.tsv" 2015 (Some "2016-09-01")]
             "E00001" 2015 in
  option_map tsv_path (fst r) = Some "annual/E00001/S100BBBB.tsv"
  /\ map skipped_tsv (snd r) = ["S100AAAA.tsv"]
  /\ map chosen_tsv (snd r) = ["S100BBBB.tsv"].
Proof. vm_compute. repeat split. Qed.

(** C7.  For filings with pairwise distinct paths, the selected filing does
    not depend on the order of the input list. *)
Theorem select_best_tsv_order_independent :
  forall (metas metas' : list TSVMetadata) (code : string) (fy : Z),
    List.NoDup (map tsv_path metas) ->
    Permutation metas metas' ->
    fst (select_best_tsv metas code fy) = fst (select_best_tsv metas' code fy).
Proof.
  intros metas metas' code fy Hnd P.
  destruct (fst (select_best_tsv metas code fy)) as [c|] eqn:E1;
    destruct (fst (select_best_tsv metas' code fy)) as [c'|] eqn:E2.
  - apply Selector.select_chosen_in in E1 as [Hc Hmax].
    apply Selector.select_chosen_in in E2 as [Hc' Hmax'].
    apply (Permutation_in _ (Permutation_sym P)) in Hc'.
    f_equal. apply (Selector.latest_unique metas); auto.
    apply Hmax'. now apply (Permutation_in _ P).
  - apply Selector.select_none in E2. subst. apply Permutation_sym, Permutation_nil in P.
    subst. discriminate.
  - apply Selector.select_none in E1. subst. apply Permutation_nil in P.
    subst. discriminate.
  - reflexivity.
Qed.

(** C7, on the two filings of the scenario in both orders. *)
Lemma select_best_tsv_order_independent_two_filings :
  fst (select_best_tsv
         [sample_meta "annual/E00001/S100AAAA.tsv" 2015 (Some "2016-06-28");
          sample_meta "annual/E00001/S100BBBB.tsv" 2015 (Some "2016-09-01")]
         "E00001" 2015)
  = fst (select_best_tsv
           [sample_meta "annual/E00001/S100BBBB.tsv" 2015 (Some "2016-09-01");
            sample_meta "annual/E00001/S100AAAA.tsv" 2015 (Some "2016-06-28")]
           "E00001" 2015).
Proof.
  apply select_best_tsv_order_independent.
  - repeat constructor; cbn; intuition discriminate.
  - apply perm_swap.
Defined.

(** ** Corpus driver *)

Section Driver.

Variable py_float : string -> option float.

Lemma group_by_year_lookup (metas : list TSVMetadata) (k : option Z) :
  forall acc : gmap (option Z) (list TSVMetadata),
    default [] (fold_left (fun by_year m =>
                  let fy := meta_fiscal_year m in
                  <[fy := (default [] (by_year !! fy) ++ [m])%list]> by_year)
                metas acc !! k)
    = (default [] (acc !! k) ++ List.filter (same_year k) metas)%list.
Proof.
  induction metas as [|m metas IH]; intros acc.
  - cbn. now rewrite app_nil_r.
  - cbn [fold_left]. rewrite IH.
    change (List.filter (same_year k) (m :: metas))
      with (if same_year k m then m :: List.filter (same_year k) metas
            else List.filter (same_year k) metas).
    unfold same_year at 2. destruct (decide (meta_fiscal_year m = k)) as [E|E].
    + rewrite (bool_decide_true _ E). rewrite E, lookup_insert_eq. cbn.
      now rewrite <- app_assoc.
    + rewrite (bool_decide_false _ E). now rewrite lookup_insert_ne.
Qed.

Lemma year_metas_lookup (w : World) (code : string) (fy : Z) :
  default [] (group_by_year (fst (scan_tsvs_for_company w code)) !! Some fy)
  = year_metas_of w code fy.
Proof.
  unfold group_by_year, year_metas_of. rewrite group_by_year_lookup.
  rewrite lookup_empty. cbn [default app].
  apply filter_ext. intros m. unfold same_year.
  destruct (meta_fiscal_year m) as [y|].
  - destruct (Z.eqb_spec y fy) as [->|N].
    + now rewrite bool_decide_true.
    + rewrite bool_decide_false; [reflexivity|congruence].
  - now rewrite bool_decide_false.
Qed.


Lemma app_locals_nil_r (a : Locals) : app_locals a no_locals = a.
Proof. destruct a. unfold app_locals. cbn. now rewrite !app_nil_r. Qed.

Lemma app_locals_assoc (a b c : Locals) :
  app_locals (app_locals a b) c = app_locals a (app_locals b c).
Proof. unfold app_locals. cbn. now rewrite <- !app_assoc. Qed.

(** A turn of the year loop appends to the lists and never reads them. *)
Lemma process_year_appends (w : World) (code : string) (info : CompanyInfo)
  (by_year : gmap (option Z) (list TSVMetadata)) (non : gmap Z string)
  (st : Locals) (fy : Z) :
  process_year py_float w code info by_year non st fy
  = (app_locals st (fst (process_year py_float w code info by_year non no_locals fy)),
     snd (process_year py_float w code info by_year non no_locals fy)).
Proof.
  unfold process_year.
  destruct (default [] (by_year !! Some fy)) as [|m0 ms].
  { unfold app_locals, log_missing. cbn. now rewrite !app_nil_r. }
  destruct (select_best_tsv (m0 :: ms) code fy) as [[chosen|] dups].
  2: { unfold app_locals. cbn. now rewrite !app_nil_r. }
  destruct (escaping w (tsv_path chosen)).
  { unfold app_locals. cbn. now rewrite !app_nil_r. }
  destruct (extract_mj_data_from_tsv py_float (read_tsv w (tsv_path chosen))
              (tsv_path chosen) chosen info) as [[mj reasons] dbg].
  destruct dbg, mj, reasons; unfold app_locals, log_missing; cbn;
    now rewrite ?app_nil_r.
Qed.

Lemma run_years_returned (step : Locals -> Z -> Locals * option string)
  (Hstep : forall st fy, step st fy
                         = (app_locals st (fst (step no_locals fy)),
                            snd (step no_locals fy)))
  (years : list Z) :
  forall st st',
    run_years step years st = (st', None) ->
    st' = app_locals st (concat_locals (map (fun fy => fst (step no_locals fy)) years))
    /\ forall fy, In fy years -> snd (step no_locals fy) = None.
Proof.
  induction years as [|fy rest IH]; intros st st'; cbn [run_years map concat_locals fold_right].
  - intros [= <-]. split; [now rewrite app_locals_nil_r|intros fy []].
  - rewrite (Hstep st fy). destruct (snd (step no_locals fy)) as [e|] eqn:E; [discriminate|].
    intros H. apply IH in H as [-> Hrest]. split.
    + now rewrite app_locals_assoc.
    + intros y [<-|Hy]; [exact E|now apply Hrest].
Qed.

(** When an exception leaves the loop, the locals hold what the completed
    years and the interrupted one had added. *)
Lemma run_years_raised (step : Locals -> Z -> Locals * option string)
  (Hstep : forall st fy, step st fy
                         = (app_locals st (fst (step no_locals fy)),
                            snd (step no_locals fy)))
  (years : list Z) :
  forall st st' e,
    run_years step years st = (st', Some e) ->
    exists done fy rest,
      years = (done ++ fy :: rest)%list
      /\ (forall y, In y done -> snd (step no_locals y) = None)
      /\ snd (step no_locals fy) = Some e
      /\ st' = app_locals st
                 (app_locals (concat_locals (map (fun y => fst (step no_locals y)) done))
                             (fst (step no_locals fy))).
Proof.
  induction years as [|fy rest IH]; intros st st' e; cbn [run_years]; [discriminate|].
  rewrite (Hstep st fy). destruct (snd (step no_locals fy)) as [e'|] eqn:E.
  - intros [= <- <-]. exists [], fy, rest.
    split; [reflexivity|]. split; [intros y []|]. split; [exact E|].
    reflexivity.
  - intros H. apply IH in H as (done & y & rest' & -> & Hdone & Hy & ->).
    exists (fy :: done), y, rest'.
    split; [reflexivity|]. split; [|split; [exact Hy|]].
    + intros z [<-|Hz]; [exact E|now apply Hdone].
    + cbn [map concat_locals fold_right]. now rewrite !app_locals_assoc.
Qed.

Lemma concat_locals_mj (l : list Locals) :
  mj_inputs (concat_locals l) = flat_map mj_inputs l.
Proof.
  induction l as [|a l IH]; [reflexivity|].
  cbn [concat_locals fold_right flat_map]. unfold app_locals at 1. cbn [mj_inputs].
  f_equal. exact IH.
Qed.

Lemma concat_locals_missing (l : list Locals) :
  missing_logs (concat_locals l) = flat_map missing_logs l.
Proof.
  induction l as [|a l IH]; [reflexivity|].
  cbn [concat_locals fold_right flat_map]. unfold app_locals at 1. cbn [missing_logs].
  f_equal. exact IH.
Qed.

(** The lists [process_company] returns are the yearly additions in order. *)
Lemma process_company_returned (w : World) (code : string) (info : CompanyInfo)
  (st : Locals) :
  process_company py_float w code info = Returned st ->
  st = concat_locals (map (fun fy => fst (year_delta py_float w code info fy)) year_range)
  /\ forall fy, In fy year_range -> snd (year_delta py_float w code info fy) = None.
Proof.
  unfold process_company, process_company_locals, year_delta.
  destruct (scan_tsvs_for_company w code) as [metas non]. cbn [fst snd].
  destruct (run_years _ year_range no_locals) as [st' [e|]] eqn:E; [discriminate|].
  intros [= <-].
  apply run_years_returned in E as [E Hnone]; [|apply process_year_appends].
  split; [|exact Hnone]. rewrite E. unfold app_locals. cbn.
  now destruct (concat_locals _).
Qed.



(** A record added by a fiscal year is the extraction from a filing of that
    year that gave no reason. *)
Lemma year_delta_source (w : World) (code : string) (info : CompanyInfo) (fy : Z)
  (m : MJInput) :
  In m (mj_inputs (fst (year_delta py_float w code info fy))) ->
  exists df chosen,
    In chosen (year_metas_of w code fy)
    /\ m = mj_of (extract_from_df py_float df (tsv_path chosen) chosen info)
    /\ reasons_of (extract_from_df py_float df (tsv_path chosen) chosen info) = [].
Proof.
  unfold year_delta, process_year.
  rewrite year_metas_lookup.
  destruct (year_metas_of w code fy) as [|m0 ms] eqn:Eym; [intros []|].
  destruct (select_best_tsv (m0 :: ms) code fy) as [[chosen|] dups] eqn:Esel;
    cbn [fst snd]; [|intros []].
  assert (Hin : In chosen (m0 :: ms)).
  { apply (Selector.select_chosen_in (m0 :: ms) code fy). now rewrite Esel. }
  destruct (escaping w (tsv_path chosen)); [intros []|].
  unfold extract_mj_data_from_tsv.
  destruct (read_tsv w (tsv_path chosen)) as [df|e]; [|intros []].
  destruct (extract_from_df py_float df (tsv_path chosen) chosen info)
    as [[mj reasons] dbg] eqn:Ex.
  destruct reasons as [|r rs]; cbn; [|intros []].
  intros [<-|[]]. exists df, chosen. rewrite Ex. auto.
Qed.

End Driver.

Section Corpus.

Variable py_float : string -> option float.

Lemma collect_records_source (w : World) (completed : list CompanyInfo) (m : MJInput) :
  forall agg,
    In m (all_mj_inputs (fold_left (collect py_float w) completed agg)) ->
    In m (all_mj_inputs agg)
    \/ exists c st, In c completed /\ process_one py_float w c = Returned st
                    /\ In m (mj_inputs st).
Proof.
  induction completed as [|c rest IH]; intros agg; cbn [fold_left]; [now left|].
  intros H. apply IH in H as [H|(c' & st & Hc & Hp & Hm)].
  - unfold collect in H. destruct (process_one py_float w c) as [st|e] eqn:E;
      cbn [all_mj_inputs] in H; [|now left].
    apply in_app_or in H as [H|H]; [now left|]. right. exists c, st. split; [now left|auto].
  - right. exists c', st. split; [now right|auto].
Qed.

(** Every record of the aggregated output is the extraction from a filing
    that gave no missing-field reason. *)
Lemma output_records_extracted (w : World) (completed : list CompanyInfo) (m : MJInput) :
  In m (all_mj_inputs (main py_float w completed)) ->
  exists df path meta info,
    m = mj_of (extract_from_df py_float df path meta info)
    /\ reasons_of (extract_from_df py_float df path meta info) = [].
Proof.
  unfold main. intros H.
  apply collect_records_source in H as [[]|(c & st & _ & Hp & Hm)].
  unfold process_one in Hp. apply process_company_returned in Hp as [-> _].
  rewrite concat_locals_mj, flat_map_concat_map, map_map in Hm.
  apply in_concat in Hm as (l & Hl & Hm). apply in_map_iff in Hl as (fy & <- & _).
  apply year_delta_source in Hm as (df & chosen & _ & E & Hr). eauto 6.
Qed.



(** C10.  The record-level receivables rule and matched tags come from the
    current-period-end resolution alone: the rule is "PLUS_E" exactly when the
    base resolved at the current period end and "NO_BASE" otherwise, whatever
    the prior period end gave, and the two recorded tags are the ones matched
    at the current period end.  The tags matched at each period end are in
    the debug entry.  Every record of the aggregated complete-case output has
    the rule "PLUS_E". *)
Theorem rec_rule_from_current_period_end :
  forall (w : World),
    (forall (df : DataFrame) (path : string) (meta : TSVMetadata) (info : CompanyInfo),
        let x := extract_from_df py_float df path meta info in
        let scope := scope_of df in
        let cur_base :=
          extract_value_with_fallback_and_eid py_float df ELEMENT_REC_BASE CUR_END
            INSTANT scope in
        let cur_claims :=
          extract_value_with_fallback_and_eid py_float df ELEMENT_ECLAIMS CUR_END
            INSTANT scope in
        let prior_base :=
          extract_value_with_fallback_and_eid py_float df ELEMENT_REC_BASE PRIOR_END
            INSTANT scope in
        let prior_claims :=
          extract_value_with_fallback_and_eid py_float df ELEMENT_ECLAIMS PRIOR_END
            INSTANT scope in
        (rec_rule (mj_of x) = Some "PLUS_E" <-> fst cur_base <> None)
        /\ (rec_rule (mj_of x) = Some "NO_BASE" <-> fst cur_base = None)
        /\ rec_used_base_eid (mj_of x) = Some (or_str (snd cur_base) "")
        /\ rec_used_eclaims_eid (mj_of x) = Some (or_str (snd cur_claims) "")
        /\ rd_rec_rule (debug_of x) = rec_rule (mj_of x)
        /\ rec_used_base_eid_end_t (debug_of x) = Some (or_str (snd cur_base) "")
        /\ rec_used_base_eid_end_t1 (debug_of x) = Some (or_str (snd prior_base) "")
        /\ rec_used_eclaims_eid_end_t (debug_of x) = Some (or_str (snd cur_claims) "")
        /\ rec_used_eclaims_eid_end_t1 (debug_of x)
           = Some (or_str (snd prior_claims) ""))
    /\ (forall completed,
          Forall (fun mj => rec_rule mj = Some "PLUS_E")
                 (all_mj_inputs (main py_float w completed))).
Proof.
  intros w. split.
  - intros df path meta info x scope cur_base cur_claims prior_base prior_claims.
    destruct (rec_rule_of_record py_float df path meta info)
      as (H1 & H2 & H3 & H4 & H5 & H6 & H7 & H8 & H9 & _).
    repeat (split; [assumption|]). assumption.
  - intros completed. apply List.Forall_forall. intros m Hm.
    apply output_records_extracted in Hm as (df & path & meta & info & -> & Hr).
    destruct (rec_rule_of_record py_float df path meta info)
      as (_ & _ & _ & _ & _ & _ & _ & _ & _ & H).
    now apply H.
Qed.

Lemma collect_data (w : World) (l : list CompanyInfo) :
  forall a b,
    all_mj_inputs a = all_mj_inputs b ->
    all_missing_logs a = all_missing_logs b ->
    all_duplicate_logs a = all_duplicate_logs b ->
    all_rec_debug_logs a = all_rec_debug_logs b ->
    let ra := fold_left (collect py_float w) l a in
    let rb := fold_left (collect py_float w) l b in
    all_mj_inputs ra = all_mj_inputs rb
    /\ all_missing_logs ra = all_missing_logs rb
    /\ all_duplicate_logs ra = all_duplicate_logs rb
    /\ all_rec_debug_logs ra = all_rec_debug_logs rb.
Proof.
  induction l as [|c l IH]; intros a b H1 H2 H3 H4; cbn [fold_left]; [auto|].
  apply IH; unfold collect; destruct (process_one py_float w c); cbn; congruence.
Qed.

Lemma collect_warnings_grow (w : World) (l : list CompanyInfo) (msg : string) :
  forall a, In msg (warnings a) -> In msg (warnings (fold_left (collect py_float w) l a)).
Proof.
  induction l as [|c l IH]; intros a H; cbn [fold_left]; [exact H|].
  apply IH. unfold collect. destruct (process_one py_float w c); cbn; [exact H|].
  apply in_or_app. now left.
Qed.

(** C5, as the code has it.  When the processing of a company raises, the
    exception is turned into a warning and the run goes on; the aggregated
    records and logs are those of the run without that company, so nothing the
    company had gathered before the exception is in them. *)
Theorem failed_company_is_dropped :
  forall (w : World) (before after : list CompanyInfo) (c : CompanyInfo) (e : string),
    process_one py_float w c = Raised e ->
    let run := main py_float w (before ++ c :: after)%list in
    let others := main py_float w (before ++ after)%list in
    all_mj_inputs run = all_mj_inputs others
    /\ all_missing_logs run = all_missing_logs others
    /\ all_duplicate_logs run = all_duplicate_logs others
    /\ all_rec_debug_logs run = all_rec_debug_logs others
    /\ In ("Error processing " ++ ci_edinet_code c ++ ": " ++ e) (warnings run).
Proof.
  intros w before after c e Hraise run others. unfold run, others, main.
  rewrite !fold_left_app. cbn [fold_left].
  set (agg := fold_left (collect py_float w) before no_results).
  assert (Hc : collect py_float w agg c
               = mkAggregate (all_mj_inputs agg) (all_missing_logs agg)
                   (all_duplicate_logs agg) (all_rec_debug_logs agg)
                   (warnings agg
                    ++ [("Error processing " ++ ci_edinet_code c ++ ": " ++ e)%string])%list).
  { unfold collect. now rewrite Hraise. }
  rewrite Hc.
  destruct (collect_data w after
              (mkAggregate (all_mj_inputs agg) (all_missing_logs agg)
                 (all_duplicate_logs agg) (all_rec_debug_logs agg)
                 (warnings agg
                  ++ [("Error processing " ++ ci_edinet_code c ++ ": " ++ e)%string])%list)
              agg eq_refl eq_refl eq_refl eq_refl) as (H1 & H2 & H3 & H4).
  repeat (split; [assumption|]).
  apply collect_warnings_grow. cbn. apply in_or_app. right. now left.
Qed.

End Corpus.

(** C1 on the sample company: both years are complete and in the output. *)
Example complete_case_run :
  map fiscal_year (all_mj_inputs (main decimal_float sound_world [sample_company]))
  = [Some 2015%Z; Some 2016%Z]
  /\ map ta_t (all_mj_inputs (main decimal_float sound_world [sample_company]))
     = [Some (-20)%float; Some (-20)%float].
Proof. vm_compute. split; reflexivity. Qed.

(** C5 as stated fails: in [faulty_world] the year 2015 of the company is
    completed with a complete record before the exception of 2016, and the
    aggregated output has neither that record nor its debug entry. *)
Lemma partial_results_are_lost :
  exists r,
    In r (mj_inputs (fst (process_company_locals decimal_float faulty_world
                            "E00001" sample_company)))
    /\ fiscal_year r = Some 2015%Z
    /\ snd (process_company_locals decimal_float faulty_world "E00001" sample_company)
       = Some "MemoryError"
    /\ ~ In r (all_mj_inputs (main decimal_float faulty_world [sample_company]))
    /\ all_rec_debug_logs (main decimal_float faulty_world [sample_company]) = []
    /\ warnings (main decimal_float faulty_world [sample_company])
       = ["Error processing E00001: MemoryError"].
Proof.
  eexists. split; [vm_compute; left; reflexivity|].
  split; [reflexivity|]. split; [vm_compute; reflexivity|].
  split; [vm_compute; intros []|]. split; vm_compute; reflexivity.
Qed.

(** C5 amended, on the sample company of [faulty_world]. *)
Lemma failed_company_is_dropped_sample :
  all_mj_inputs (main decimal_float faulty_world ([] ++ sample_company :: [])%list)
  = all_mj_inputs (main decimal_float faulty_world ([] ++ [])%list)
  /\ In ("Error processing " ++ ci_edinet_code sample_company ++ ": " ++ "MemoryError")
        (warnings (main decimal_float faulty_world ([] ++ sample_company :: [])%list)).
Proof.
  destruct (failed_company_is_dropped decimal_float faulty_world [] [] sample_company
              "MemoryError" ltac:(vm_compute; reflexivity))
    as (H1 & _ & _ & _ & H5).
  split; [exact H1|exact H5].
Defined.

(** ** Runs on sample rows *)

(** The resolver drops the segment row (5000), keeps the scope-member row
    (1200) and the plain row (1000), and stops at the first tag. *)
Example resolver_run :
  _extract_value_polars_with_eid decimal_float
    [ fact "NetSales" "CurrentYearDuration_ReportableSegmentsMember" CUR CONSOLIDATED
           DURATION "5000";
      fact "NetSales" "CurrentYearDuration" CUR CONSOLIDATED DURATION "1,000";
      fact "NetSales" "CurrentYearDuration_ConsolidatedMember" CUR CONSOLIDATED
           DURATION "1200";
      fact "NetSales" "CurrentYearDuration" CUR CONSOLIDATED DURATION "－";
      fact "NetSalesOfCompletedConstructionContracts" "CurrentYearDuration" CUR
           CONSOLIDATED DURATION "9000" ]
    ELEMENT_NET_SALES CUR DURATION CONSOLIDATED JPPFS
  = (Some 1200%float, Some "NetSales").
Proof. vm_compute. reflexivity. Qed.

(** The second tag is used when the first has no usable value. *)
Example resolver_fallback_run :
  _extract_value_polars_with_eid decimal_float
    [ fact "NetSales" "CurrentYearDuration" CUR CONSOLIDATED DURATION "－";
      fact "NetSalesOfCompletedConstructionContracts" "CurrentYearDuration" CUR
           CONSOLIDATED DURATION "9000" ]
    ELEMENT_NET_SALES CUR DURATION CONSOLIDATED JPPFS
  = (Some 9000%float, Some "NetSalesOfCompletedConstructionContracts").
Proof. vm_compute. reflexivity. Qed.

(** Claims alone never stand for the base: base absent, claims 15. *)
Example claims_without_base_run :
  let mj := mj_of (extract_from_df decimal_float
                     [ fact "ElectronicallyRecordedMonetaryClaimsOperatingCA"
                            "CurrentYearInstant" CUR_END NON_CONSOLIDATED INSTANT "15" ]
                     "annual/E00001/S100AAAA.tsv"
                     (sample_meta "annual/E00001/S100AAAA.tsv" 2015 None)
                     sample_company) in
  ar_end_t mj = None /\ eclaims_end_t mj = Some 15%float
  /\ rec_rule mj = Some "NO_BASE" /\ is_consolidated mj = Some false.
Proof. vm_compute. repeat split. Qed.

(** The placeholders and an unreadable text are absent. *)
Example normalize_absent_run :
  map (fun s => normalize_value decimal_float (Some s) (Some "円"))
      [ ""; "－"; "-"; "―"; "ー"; "−"; "nan"; "None"; " - "; "abc"; "()" ]
  = [ None; None; None; None; None; None; None; None; None; None; None ].
Proof. vm_compute. reflexivity. Qed.

(** ** Further properties: whitespace around a value *)

Module StripFacts.

Import PyStrFacts.

Lemma ascii_space_small (c : ascii) : ascii_space c = true -> (nat_of_ascii c <= 32)%nat.
Proof.
  unfold ascii_space. intros H.
  apply orb_true_iff in H as [H|H]; apply andb_true_iff in H as [_ H];
    apply Nat.leb_le in H; lia.
Qed.

Lemma small_not_lead2 (c : ascii) : (nat_of_ascii c <= 32)%nat -> lead2 c = false.
Proof. unfold lead2. intros H. apply Nat.eqb_neq. lia. Qed.

Lemma small_not_lead3 (c : ascii) : (nat_of_ascii c <= 32)%nat -> lead3 c = false.
Proof.
  unfold lead3. intros H. apply andb_false_iff. left. apply Nat.leb_gt. lia.
Qed.

Lemma small_not_space2 (c : ascii) : (nat_of_ascii c <= 32)%nat -> space2 c = false.
Proof.
  unfold space2. intros H. apply orb_false_iff. split; apply Nat.eqb_neq; lia.
Qed.

Lemma small_not_space3_last (c1 c2 c : ascii) :
  (nat_of_ascii c <= 32)%nat -> space3 c1 c2 c = false.
Proof.
  unfold space3. intros H.
  assert (E1 : (nat_of_ascii c =? 128)%nat = false) by (apply Nat.eqb_neq; lia).
  assert (E2 : (128 <=? nat_of_ascii c)%nat = false) by (apply Nat.leb_gt; lia).
  assert (E3 : (nat_of_ascii c =? 168)%nat = false) by (apply Nat.eqb_neq; lia).
  assert (E4 : (nat_of_ascii c =? 169)%nat = false) by (apply Nat.eqb_neq; lia).
  assert (E5 : (nat_of_ascii c =? 175)%nat = false) by (apply Nat.eqb_neq; lia).
  assert (E6 : (nat_of_ascii c =? 159)%nat = false) by (apply Nat.eqb_neq; lia).
  rewrite E1, E2, E3, E4, E5, E6. cbn. now rewrite !andb_false_r.
Qed.

Lemma small_not_space3_mid (c1 c c3 : ascii) :
  (nat_of_ascii c <= 32)%nat -> space3 c1 c c3 = false.
Proof.
  unfold space3. intros H.
  assert (E1 : (nat_of_ascii c =? 154)%nat = false) by (apply Nat.eqb_neq; lia).
  assert (E2 : (nat_of_ascii c =? 128)%nat = false) by (apply Nat.eqb_neq; lia).
  assert (E3 : (nat_of_ascii c =? 129)%nat = false) by (apply Nat.eqb_neq; lia).
  rewrite E1, E2, E3. cbn. now rewrite !andb_false_r.
Qed.

Lemma blank_cons (c : ascii) (r : string) :
  blank (String c r) = true -> ascii_space c = true /\ blank r = true.
Proof. cbn [blank]. apply andb_true_iff. Qed.

Lemma lstrip_blank_prefix (a s : string) : blank a = true -> lstrip (a ++ s) = lstrip s.
Proof.
  induction a as [|c a IH]; [reflexivity|]. intros H.
  apply blank_cons in H as [Hc Ha]. rewrite app_cons, lstrip_cons, Hc. now apply IH.
Qed.

Lemma lstrip_blank (b : string) : blank b = true -> lstrip b = "".
Proof.
  intros H. transitivity (lstrip (b ++ "")).
  - f_equal. clear H. induction b as [|c b IH]; [reflexivity|].
    now rewrite app_cons, <- IH.
  - now rewrite (lstrip_blank_prefix b "" H).
Qed.

Lemma lstrip_keeps_head (c : ascii) (r : string) :
  ascii_space c = true -> lstrip (String c r) = lstrip r.
Proof. intros H. now rewrite lstrip_cons, H. Qed.

(** What [lstrip] leaves of a text is not affected by blanks after it. *)
Lemma lstrip_blank_suffix (n : nat) :
  forall x b, (String.length x <= n)%nat -> blank b = true ->
    (lstrip x = "" -> lstrip (x ++ b) = "")
    /\ (lstrip x <> "" -> lstrip (x ++ b) = lstrip x ++ b).
Proof.
  induction n as [|n IH]; intros x b Hlen Hb.
  { destruct x; [|cbn [String.length] in Hlen; lia].
    rewrite app_nil. split; [intros _; now apply lstrip_blank|intros H; now contradiction H]. }
  destruct x as [|c1 r1].
  { rewrite app_nil. split; [intros _; now apply lstrip_blank|intros H; now contradiction H]. }
  cbn [String.length] in Hlen. rewrite app_cons, !lstrip_cons.
  destruct (ascii_space c1); [apply IH; [lia|exact Hb]|].
  destruct (lead2 c1).
  { destruct r1 as [|c2 r2].
    - rewrite app_nil. destruct b as [|c b'].
      + split; [discriminate|reflexivity].
      + apply blank_cons in Hb as [Hc _]. apply ascii_space_small in Hc.
        rewrite (small_not_space2 _ Hc). split; [discriminate|reflexivity].
    - rewrite app_cons. destruct (space2 c2).
      + apply IH; [cbn [String.length] in Hlen; lia|exact Hb].
      + split; [discriminate|reflexivity]. }
  destruct (lead3 c1); [|split; [discriminate|reflexivity]].
  destruct r1 as [|c2 [|c3 r3]].
  - rewrite app_nil. destruct b as [|c [|c' b'']].
    + split; [discriminate|reflexivity].
    + split; [discriminate|reflexivity].
    + apply blank_cons in Hb as [Hc _]. apply ascii_space_small in Hc.
      rewrite (small_not_space3_mid _ _ _ Hc). split; [discriminate|reflexivity].
  - rewrite app_cons, app_nil. destruct b as [|c b'].
    + split; [discriminate|reflexivity].
    + apply blank_cons in Hb as [Hc _]. apply ascii_space_small in Hc.
      rewrite (small_not_space3_last _ _ _ Hc). split; [discriminate|reflexivity].
  - rewrite !app_cons. destruct (space3 c1 c2 c3).
    + apply IH; [cbn [String.length] in Hlen; lia|exact Hb].
    + split; [discriminate|reflexivity].
Qed.

Lemma all_space_blank_suffix (x b : string) :
  blank b = true -> all_space (x ++ b) = all_space x.
Proof.
  intros Hb. unfold all_space.
  destruct (lstrip_blank_suffix (String.length x) x b (le_n _) Hb) as [H1 H2].
  destruct (lstrip x) as [|c r] eqn:E.
  - now rewrite H1.
  - rewrite H2 by discriminate. reflexivity.
Qed.

Lemma rstrip_blank (b : string) : blank b = true -> rstrip b = "".
Proof.
  intros H. destruct b as [|c b]; [reflexivity|].
  cbn [rstrip]. unfold all_space. now rewrite (lstrip_blank _ H).
Qed.

Lemma rstrip_blank_suffix (x b : string) : blank b = true -> rstrip (x ++ b) = rstrip x.
Proof.
  intros Hb. induction x as [|c r IH].
  - rewrite app_nil. now apply rstrip_blank.
  - rewrite app_cons. cbn [rstrip].
    change (String c (r ++ b)) with (String c r ++ b) at 1.
    rewrite (all_space_blank_suffix (String c r) b Hb), IH. reflexivity.
Qed.

(** [strip] does not see blanks around a text. *)
Lemma strip_padding (a v b : string) :
  blank a = true -> blank b = true -> strip (a ++ v ++ b) = strip v.
Proof.
  intros Ha Hb. unfold strip. rewrite (lstrip_blank_prefix a _ Ha).
  destruct (lstrip_blank_suffix (String.length v) v b (le_n _) Hb) as [H1 H2].
  destruct (lstrip v) as [|c r] eqn:E.
  - now rewrite H1.
  - rewrite H2 by discriminate. now apply rstrip_blank_suffix.
Qed.

End StripFacts.

(** X1.  Blanks (tabs, line breaks, spaces and the other one-byte whitespace)
    before and after the text of a value never change what the text
    normalizes to. *)
Theorem normalize_value_ignores_padding :
  forall (py_float : string -> option float) (a v b : string) (u : option string),
    blank a = true -> blank b = true ->
    normalize_value py_float (Some (a ++ v ++ b)) u
    = normalize_value py_float (Some v) u.
Proof.
  intros py_float a v b u Ha Hb. unfold normalize_value.
  rewrite (StripFacts.strip_padding a v b Ha Hb). reflexivity.
Qed.

(** X1 on a padded negative amount. *)
Lemma normalize_value_ignores_padding_sample :
  normalize_value decimal_float (Some ("  " ++ "(1,234)" ++ " ")) (Some "千円")
  = normalize_value decimal_float (Some "(1,234)") (Some "千円").
Proof.
  apply normalize_value_ignores_padding; reflexivity.
Defined.

(** X2.  A null value and every placeholder text, with or without blanks
    around it, is absent, whatever the unit and whatever [float] does. *)
Theorem normalize_value_placeholder_absent :
  forall (py_float : string -> option float) (p a b : string) (u : option string),
    In p MISSING_PATTERNS -> blank a = true -> blank b = true ->
    normalize_value py_float (Some (a ++ p ++ b)) u = None
    /\ normalize_value py_float None u = None.
Proof.
  intros py_float p a b u Hp Ha Hb. split; [|reflexivity].
  unfold normalize_value. rewrite (StripFacts.strip_padding a p b Ha Hb).
  cbn [MISSING_PATTERNS In] in Hp.
  repeat (destruct Hp as [<-|Hp]; [reflexivity|]). destruct Hp.
Qed.

(** X2 on the full-width dash between two spaces. *)
Lemma normalize_value_placeholder_absent_sample :
  normalize_value decimal_float (Some (" " ++ "－" ++ " ")) (Some "百万円") = None
  /\ normalize_value decimal_float None (Some "百万円") = None.
Proof.
  apply normalize_value_placeholder_absent; [|reflexivity|reflexivity].
  cbn. right. left. reflexivity.
Defined.

(** ** Further properties: extraction and resolution *)

Section MoreExtraction.

Variable py_float : string -> option float.

Lemma note_missing_length {A : Type} (f : option A) (text : string) (rs : list string) :
  length (note_missing f text rs) = (length rs + if is_some f then 0 else 1)%nat.
Proof.
  destruct f; cbn [note_missing is_some]; [lia|]. rewrite length_app. reflexivity.
Qed.

Lemma count_absent_cons (f : option float) (fs : list (option float)) :
  count_absent (f :: fs) = (absent01 f + count_absent fs)%nat.
Proof. unfold count_absent, absent01. cbn [List.filter]. destruct f; reflexivity. Qed.

(** X3.  The reasons of an extraction are one per absent required field: the
    length of the list is the number of absent fields among the eleven. *)
Theorem one_reason_per_absent_field :
  forall (df : DataFrame) (path : string) (meta : TSVMetadata) (info : CompanyInfo),
    length (reasons_of (extract_from_df py_float df path meta info))
    = count_absent (required_fields (mj_of (extract_from_df py_float df path meta info))).
Proof.
  intros df path meta info.
  unfold extract_from_df, mj_of, reasons_of, required_fields.
  destruct (extract_value_with_fallback_and_eid py_float df ELEMENT_REC_BASE CUR_END _ _).
  destruct (extract_value_with_fallback_and_eid py_float df ELEMENT_ECLAIMS CUR_END _ _).
  destruct (extract_value_with_fallback_and_eid py_float df ELEMENT_REC_BASE PRIOR_END _ _).
  destruct (extract_value_with_fallback_and_eid py_float df ELEMENT_ECLAIMS PRIOR_END _ _).
  cbn [fst snd rev_t rev_t1 ni_t cfo_t assets_prev_end ar_end_t ar_end_t1 ppe_end_t
       ta_t d_rev d_ar].
  rewrite !note_missing_length, !count_absent_cons.
  unfold absent01, count_absent. cbn [length List.filter]. lia.
Qed.

Lemma filter_relevant (full rel pt cons : string) (df : DataFrame) :
  List.filter not_segment (List.filter (matches full rel pt cons) df)
  = List.filter (fun r => String.eqb (elem_id r) full)
                (List.filter (relevant rel pt cons) df).
Proof.
  induction df as [|r df IH]; [reflexivity|].
  cbn [List.filter]. unfold matches at 1, relevant at 1.
  destruct (String.eqb (elem_id r) full) eqn:E1,
           (String.eqb (relative_year r) rel),
           (String.eqb (period_type r) pt),
           (String.eqb (cons_type r) cons),
           (not_segment r) eqn:E5;
    cbn [andb List.filter]; rewrite ?E1, ?E5; cbn [List.filter]; rewrite ?IH; reflexivity.
Qed.

(** X4.  A resolver answer depends on the table only through its rows of the
    requested period, period kind and scope that are not segment members:
    two tables with the same such rows give the same answer, with and without
    the tag. *)
Theorem resolver_reads_relevant_rows_only :
  forall (df df' : DataFrame) (ids : list string) (rel pt cons prefix : string),
    List.filter (relevant rel pt cons) df = List.filter (relevant rel pt cons) df' ->
    _extract_value_polars_with_eid py_float df ids rel pt cons prefix
    = _extract_value_polars_with_eid py_float df' ids rel pt cons prefix
    /\ _extract_value_polars py_float df ids rel pt cons prefix
       = _extract_value_polars py_float df' ids rel pt cons prefix.
Proof.
  intros df df' ids rel pt cons prefix H.
  assert (E : _extract_value_polars_with_eid py_float df ids rel pt cons prefix
              = _extract_value_polars_with_eid py_float df' ids rel pt cons prefix).
  { induction ids as [|elem rest IH]; [reflexivity|].
    rewrite !with_eid_step, !filter_relevant, H, IH. reflexivity. }
  split; [exact E|]. now rewrite !value_only_fst, E.
Qed.

Lemma filter_perm {A : Type} (f : A -> bool) (l l' : list A) :
  Permutation l l' -> Permutation (List.filter f l) (List.filter f l').
Proof.
  induction 1 as [|x l l' _ IH|x y l|l l' l'' _ IH1 _ IH2]; cbn [List.filter].
  - constructor.
  - destruct (f x); [now constructor|exact IH].
  - destruct (f x), (f y); try reflexivity. apply perm_swap.
  - etransitivity; eassumption.
Qed.

Lemma normalized_values_perm (l l' : list Row) :
  Permutation l l' ->
  Permutation (normalized_values py_float l) (normalized_values py_float l').
Proof.
  induction 1 as [|x l l' _ IH|x y l|l l' l'' _ IH1 _ IH2]; cbn [normalized_values].
  - constructor.
  - destruct (normalize_value py_float (value x) (unit x)); [now constructor|exact IH].
  - destruct (normalize_value py_float (value x) (unit x)),
             (normalize_value py_float (value y) (unit y)); try reflexivity.
    apply perm_swap.
  - etransitivity; eassumption.
Qed.

Lemma leb_antisym (x y : float) :
  (x <=? y)%float = true -> (y <=? x)%float = true -> (x =? y)%float = true.
Proof.
  rewrite !FloatAxioms.leb_spec, FloatAxioms.eqb_spec.
  unfold SFleb, SFeqb, SFcompare.
  destruct (Prim2SF x) as [sx|sx| |sx mx ex], (Prim2SF y) as [sy|sy| |sy my ey];
    repeat match goal with s : bool |- _ => destruct s end;
    cbn; try discriminate; try reflexivity;
    intros H1 H2; FloatFacts.cmp_cases; subst; cbn in *;
    try discriminate; try reflexivity; try lia.
Qed.

(** The maxima of two arrangements of the same numbers are the same number. *)
Lemma py_max_perm (v v' : float) (vs vs' : list float) :
  Permutation (v :: vs) (v' :: vs') ->
  (forall w, In w (v :: vs) -> is_nan w = false) ->
  same_number (py_max v vs) (py_max v' vs').
Proof.
  intros P Hnan. left.
  assert (Hnan' : forall w, In w (v' :: vs') -> is_nan w = false).
  { intros w Hw. apply Hnan. now apply (Permutation_in _ (Permutation_sym P)). }
  apply leb_antisym.
  - apply py_max_greatest; [exact Hnan'|].
    apply (Permutation_in _ P). apply py_max_in.
  - apply py_max_greatest; [exact Hnan|].
    apply (Permutation_in _ (Permutation_sym P)). apply py_max_in.
Qed.

(** X5.  When no value of the table normalizes to NaN, the answer of the
    resolver does not depend on the order of the rows: the same tag, and
    values that are the same number. *)
Theorem resolver_row_order_independent :
  forall (df df' : DataFrame) (ids : list string) (rel pt cons prefix : string),
    Permutation df df' ->
    (forall r v, In r df -> normalize_value py_float (value r) (unit r) = Some v ->
                 is_nan v = false) ->
    same_answer (_extract_value_polars_with_eid py_float df ids rel pt cons prefix)
                (_extract_value_polars_with_eid py_float df' ids rel pt cons prefix).
Proof.
  intros df df' ids rel pt cons prefix P Hnan.
  induction ids as [|elem rest IH]; [split; [reflexivity|exact I]|].
  rewrite !with_eid_step.
  pose proof (normalized_values_perm _ _
                (filter_perm not_segment _ _
                   (filter_perm (matches (prefix ++ elem) rel pt cons) _ _ P))) as PV.
  assert (Hv : forall w,
             In w (normalized_values py_float
                     (List.filter not_segment
                        (List.filter (matches (prefix ++ elem) rel pt cons) df))) ->
             is_nan w = false).
  { intros w Hw. apply normalized_values_In in Hw as (r & Hr & E).
    apply filter_In in Hr as [Hr _]. apply filter_In in Hr as [Hr _]. eauto. }
  destruct (normalized_values py_float
              (List.filter not_segment
                 (List.filter (matches (prefix ++ elem) rel pt cons) df)))
    as [|v vs];
  destruct (normalized_values py_float
              (List.filter not_segment
                 (List.filter (matches (prefix ++ elem) rel pt cons) df')))
    as [|v' vs'].
  - exact IH.
  - apply Permutation_nil in PV. discriminate.
  - apply Permutation_sym, Permutation_nil in PV. discriminate.
  - split; [reflexivity|]. cbn [fst]. now apply py_max_perm.
Qed.

End MoreExtraction.

(** X4 on the sample table and the same table with a non-consolidated row and
    a segment row added. *)
Lemma resolver_reads_relevant_rows_only_sample :
  _extract_value_polars_with_eid decimal_float sample_df ELEMENT_NET_SALES
    CUR DURATION CONSOLIDATED JPPFS
  = _extract_value_polars_with_eid decimal_float
      (fact "NetSales" "CurrentYearDuration" CUR NON_CONSOLIDATED DURATION "7"
       :: fact "NetSales" "CurrentYearDuration_ReportableSegmentsMember" CUR
               CONSOLIDATED DURATION "9999"
       :: sample_df)
      ELEMENT_NET_SALES CUR DURATION CONSOLIDATED JPPFS.
Proof.
  apply (resolver_reads_relevant_rows_only decimal_float). reflexivity.
Defined.

(** X5 on the sample table and its reversal. *)
Lemma resolver_row_order_independent_sample :
  same_answer
    (_extract_value_polars_with_eid decimal_float sample_df ELEMENT_REC_BASE
       CUR_END INSTANT CONSOLIDATED JPPFS)
    (_extract_value_polars_with_eid decimal_float (rev sample_df) ELEMENT_REC_BASE
       CUR_END INSTANT CONSOLIDATED JPPFS).
Proof.
  apply resolver_row_order_independent.
  - apply Permutation_rev.
  - intros r v Hr.
    repeat (destruct Hr as [<-|Hr]; [vm_compute; intros [= <-]; reflexivity|]).
    destruct Hr.
Defined.

(** ** Further properties: selection and scan *)

(** X6.  For every list of filings, the selector returns nothing exactly when
    the list is empty; otherwise it returns one filing of the list and logs
    each of the others once, naming the selected filing in every entry.  The
    log has one entry less than there are filings. *)
Theorem select_best_tsv_partitions_input :
  forall (metas : list TSVMetadata) (code : string) (fy : Z),
    (fst (select_best_tsv metas code fy) = None <-> metas = [])
    /\ (metas = [] -> select_best_tsv metas code fy = (None, []))
    /\ (forall chosen,
           fst (select_best_tsv metas code fy) = Some chosen ->
           exists skipped,
             snd (select_best_tsv metas code fy)
             = map (duplicate_entry code fy chosen) skipped
             /\ Permutation (chosen :: skipped) metas)
    /\ length (snd (select_best_tsv metas code fy)) = pred (length metas).
Proof.
  intros metas code fy.
  split; [apply Selector.select_none|]. split; [now intros ->|].
  destruct metas as [|m1 [|m2 ms]].
  - split; [discriminate|reflexivity].
  - split; [|reflexivity]. cbn. intros chosen [= <-]. exists []. split; reflexivity.
  - destruct (Selector.select_many m1 m2 ms code fy) as (c & skipped & E & ->).
    cbn [fst snd]. split.
    + intros chosen [= <-]. exists skipped. split; [reflexivity|].
      rewrite <- E. apply Selector.sort_desc_perm.
    + rewrite length_map.
      pose proof (Permutation_length (Selector.sort_desc_perm (m1 :: m2 :: ms))) as L.
      rewrite E in L. cbn [length] in L |- *. lia.
Qed.

Section Scan.

Variable w : World.

Lemma scan_step_keeps (st : list TSVMetadata * gmap Z string) (p : string) :
  (forall m, In m (fst st) -> In m (fst (scan_step w st p)))
  /\ (forall k, is_Some (snd st !! k) -> is_Some (snd (scan_step w st p) !! k)).
Proof.
  destruct st as [metas d]. unfold scan_step.
  destruct (read_tsv_dei_only w p) as [meta|]; [|auto].
  destruct (meta_fiscal_year meta) as [fy|]; [|auto].
  destruct (in_range fy); cbn [negb]; [|auto].
  destruct (has_ifrs_us_gaap meta).
  { cbn [fst snd]. split; [auto|]. intros k Hk.
    destruct (decide (fy = k)) as [->|N];
      [rewrite lookup_insert_eq; eauto|now rewrite lookup_insert_ne]. }
  destruct (match accounting_standard meta with
            | Some a => contains "Japan GAAP" a
            | None => true
            end); cbn [negb fst snd].
  - split; [|auto]. intros m Hm. apply in_or_app. now left.
  - split; [auto|]. intros k Hk.
    destruct (decide (fy = k)) as [->|N];
      [rewrite lookup_insert_eq; eauto|now rewrite lookup_insert_ne].
Qed.

Lemma scan_fold_keeps (paths : list string) :
  forall st,
    (forall m, In m (fst st) -> In m (fst (fold_left (scan_step w) paths st)))
    /\ (forall k, is_Some (snd st !! k) ->
                  is_Some (snd (fold_left (scan_step w) paths st) !! k)).
Proof.
  induction paths as [|p paths IH]; intros st; cbn [fold_left]; [auto|].
  destruct (IH (scan_step w st p)) as [I1 I2].
  destruct (scan_step_keeps st p) as [S1 S2]. split; auto.
Qed.

Lemma in_range_bounds (fy : Z) :
  in_range fy = true <-> (FISCAL_YEAR_MIN <= fy <= FISCAL_YEAR_MAX)%Z.
Proof. unfold in_range. rewrite andb_true_iff, !Z.leb_le. tauto. Qed.

(** One step of the scan adds an eligible filing read from the path, or
    records a year of the range, or does nothing. *)
Lemma scan_step_adds (st : list TSVMetadata * gmap Z string) (p : string) :
  (forall m, In m (fst (scan_step w st p)) ->
             In m (fst st) \/ (eligible m /\ read_tsv_dei_only w p = Some m))
  /\ (forall k, is_Some (snd (scan_step w st p) !! k) ->
                is_Some (snd st !! k) \/ in_range k = true).
Proof.
  destruct st as [metas d]. unfold scan_step.
  destruct (read_tsv_dei_only w p) as [meta|] eqn:Er; [|auto].
  destruct (meta_fiscal_year meta) as [fy|] eqn:Ey; [|auto].
  destruct (in_range fy) eqn:Ein; cbn [negb]; [|auto].
  destruct (has_ifrs_us_gaap meta) eqn:Ei.
  { cbn [fst snd]. split; [auto|]. intros k Hk.
    destruct (decide (fy = k)) as [<-|N]; [now right|].
    rewrite lookup_insert_ne in Hk by exact N. now left. }
  destruct (accounting_standard meta) as [a|] eqn:Ea.
  - destruct (contains "Japan GAAP" a) eqn:Ec; cbn [negb fst snd].
    + split; [|auto]. intros m Hm. apply in_app_or in Hm as [Hm|[<-|[]]]; [now left|].
      right. split; [|reflexivity]. unfold eligible. rewrite Ey, Ei, Ea.
      split; [exists fy; split; [reflexivity|now apply in_range_bounds]|].
      split; [reflexivity|]. right. exists a. auto.
    + split; [auto|]. intros k Hk.
      destruct (decide (fy = k)) as [<-|N]; [now right|].
      rewrite lookup_insert_ne in Hk by exact N. now left.
  - cbn [negb fst snd]. split; [|auto].
    intros m Hm. apply in_app_or in Hm as [Hm|[<-|[]]]; [now left|].
    right. split; [|reflexivity]. unfold eligible. rewrite Ey, Ei, Ea.
    split; [exists fy; split; [reflexivity|now apply in_range_bounds]|].
    split; [reflexivity|]. now left.
Qed.

Lemma scan_fold_adds (paths : list string) :
  forall st,
    (forall m, In m (fst (fold_left (scan_step w) paths st)) ->
               In m (fst st)
               \/ (eligible m /\ exists p, In p paths /\ read_tsv_dei_only w p = Some m))
    /\ (forall k, is_Some (snd (fold_left (scan_step w) paths st) !! k) ->
                  is_Some (snd st !! k) \/ in_range k = true).
Proof.
  induction paths as [|p paths IH]; intros st; cbn [fold_left]; [auto|].
  destruct (IH (scan_step w st p)) as [I1 I2].
  destruct (scan_step_adds st p) as [S1 S2]. split.
  - intros m Hm. apply I1 in Hm as [Hm|(He & q & Hq & Hr)].
    + apply S1 in Hm as [Hm|[He Hr]]; [now left|].
      right. split; [exact He|]. exists p. split; [now left|exact Hr].
    + right. split; [exact He|]. exists q. split; [now right|exact Hr].
  - intros k Hk. apply I2 in Hk as [Hk|Hk]; [|now right]. now apply S2.
Qed.

Lemma kept_filing_is_eligible (code : string) (m : TSVMetadata) :
  In m (fst (scan_tsvs_for_company w code)) -> eligible m.
Proof.
  unfold scan_tsvs_for_company.
  destruct (glob_tsv w code) as [paths|]; [|intros []].
  intros Hm. destruct (scan_fold_adds paths ([], ∅)) as [H1 _].
  apply H1 in Hm as [[]|[He _]]. exact He.
Qed.

(** X7.  Every filing the scan keeps was read from a path of the company
    directory and is eligible: its fiscal year is in the configured range, it
    has no IFRS or US-GAAP tag, and its accounting standard is absent or
    names Japan GAAP.  Only years of the range are recorded with another
    standard, and a missing directory gives no filing and no recorded year. *)
Theorem scan_keeps_eligible_filings_only :
  forall (code : string),
    (forall m, In m (fst (scan_tsvs_for_company w code)) ->
               eligible m
               /\ exists paths p, glob_tsv w code = Some paths /\ In p paths
                                  /\ read_tsv_dei_only w p = Some m)
    /\ (forall fy, is_Some (snd (scan_tsvs_for_company w code) !! fy) ->
                   (FISCAL_YEAR_MIN <= fy <= FISCAL_YEAR_MAX)%Z)
    /\ (glob_tsv w code = None -> scan_tsvs_for_company w code = ([], ∅)).
Proof.
  intros code. unfold scan_tsvs_for_company.
  destruct (glob_tsv w code) as [paths|].
  - destruct (scan_fold_adds paths ([], ∅)) as [H1 H2]. split; [|split; [|discriminate]].
    + intros m Hm. apply H1 in Hm as [[]|(He & p & Hp & Hr)].
      split; [exact He|]. exists paths, p. auto.
    + intros fy Hk. apply H2 in Hk as [Hk|Hk]; [|now apply in_range_bounds].
      cbn [snd] in Hk. rewrite lookup_empty in Hk. destruct Hk; discriminate.
  - split; [intros m []|]. split; [|reflexivity].
    cbn [snd]. intros fy Hk. rewrite lookup_empty in Hk. destruct Hk; discriminate.
Qed.

(** What one step of the scan does to the entry of a year of the range. *)
Lemma scan_step_label (st : list TSVMetadata * gmap Z string) (p : string) (fy : Z) :
  in_range fy = true ->
  snd (scan_step w st p) !! fy
  = match label_at w fy p with
    | Some l => Some l
    | None => snd st !! fy
    end.
Proof.
  intros Hfy. destruct st as [metas d]. unfold scan_step, label_at, exclusion_label.
  destruct (read_tsv_dei_only w p) as [meta|]; [|reflexivity].
  destruct (meta_fiscal_year meta) as [y|] eqn:Ey;
    [|rewrite bool_decide_eq_false_2 by discriminate; reflexivity].
  destruct (decide (y = fy)) as [->|N].
  - rewrite bool_decide_eq_true_2 by reflexivity. rewrite Hfy. cbn [negb].
    destruct (has_ifrs_us_gaap meta); [cbn [snd]; now rewrite lookup_insert_eq|].
    destruct (accounting_standard meta) as [a|]; [|reflexivity].
    destruct (contains "Japan GAAP" a); cbn [negb snd]; [reflexivity|].
    now rewrite lookup_insert_eq.
  - rewrite bool_decide_eq_false_2 by congruence.
    destruct (in_range y); cbn [negb]; [|reflexivity].
    destruct (has_ifrs_us_gaap meta); [cbn [snd]; now rewrite lookup_insert_ne|].
    destruct (accounting_standard meta) as [a|]; [|reflexivity].
    destruct (contains "Japan GAAP" a); cbn [negb snd]; [reflexivity|].
    now rewrite lookup_insert_ne.
Qed.

Lemma scan_fold_label (paths : list string) (fy : Z) :
  in_range fy = true ->
  forall st,
    snd (fold_left (scan_step w) paths st) !! fy
    = match last_label w fy paths with
      | Some l => Some l
      | None => snd st !! fy
      end.
Proof.
  intros Hfy. induction paths as [|p paths IH]; intros st; [reflexivity|].
  cbn [fold_left last_label]. rewrite IH.
  destruct (last_label w fy paths); [reflexivity|]. now apply scan_step_label.
Qed.

(** A label given along the paths leaves the year with a last label. *)
Lemma last_label_some (paths : list string) (fy : Z) (p l : string) :
  In p paths -> label_at w fy p = Some l -> is_Some (last_label w fy paths).
Proof.
  induction paths as [|q paths IH]; [intros []|].
  intros [->|Hp] Hl; cbn [last_label].
  - destruct (last_label w fy paths); [eauto|]. rewrite Hl. eauto.
  - destruct (IH Hp Hl) as [x ->]. eauto.
Qed.

(** A filing without exclusion label is kept by its step. *)
Lemma scan_step_keeps_unlabelled (st : list TSVMetadata * gmap Z string) (p : string)
  (meta : TSVMetadata) (fy : Z) :
  read_tsv_dei_only w p = Some meta -> meta_fiscal_year meta = Some fy ->
  in_range fy = true -> exclusion_label meta = None ->
  In meta (fst (scan_step w st p)).
Proof.
  intros Er Ey Ein. destruct st as [metas d]. unfold scan_step, exclusion_label.
  rewrite Er, Ey, Ein. cbn [negb].
  destruct (has_ifrs_us_gaap meta); [discriminate|].
  destruct (accounting_standard meta) as [a|].
  - destruct (contains "Japan GAAP" a); [|discriminate].
    intros _. cbn. apply in_or_app. right. now left.
  - intros _. cbn. apply in_or_app. right. now left.
Qed.

(** X8.  No readable filing with a fiscal year of the range is dropped
    silently by the scan.  A filing that is not flagged IFRS or US-GAAP and
    whose standard is absent or names Japan GAAP is among the kept filings;
    every other one gives its label to its fiscal year, and the year is
    recorded.  The entry of a year is the label of the last such filing of
    the year in directory order: a later excluded filing overwrites the
    standard recorded by an earlier one. *)
Theorem scan_accounts_for_every_filing :
  forall (code : string) (paths : list string),
    glob_tsv w code = Some paths ->
    (forall fy, (FISCAL_YEAR_MIN <= fy <= FISCAL_YEAR_MAX)%Z ->
                snd (scan_tsvs_for_company w code) !! fy = last_label w fy paths)
    /\ (forall p meta fy,
          In p paths -> read_tsv_dei_only w p = Some meta ->
          meta_fiscal_year meta = Some fy ->
          (FISCAL_YEAR_MIN <= fy <= FISCAL_YEAR_MAX)%Z ->
          match exclusion_label meta with
          | None => In meta (fst (scan_tsvs_for_company w code))
          | Some l => label_at w fy p = Some l
                      /\ is_Some (snd (scan_tsvs_for_company w code) !! fy)
          end).
Proof.
  intros code paths Hg.
  assert (H1 : forall fy, (FISCAL_YEAR_MIN <= fy <= FISCAL_YEAR_MAX)%Z ->
                 snd (scan_tsvs_for_company w code) !! fy = last_label w fy paths).
  { intros fy Hfy. apply in_range_bounds in Hfy.
    unfold scan_tsvs_for_company. rewrite Hg, (scan_fold_label paths fy Hfy).
    cbn [snd]. rewrite lookup_empty. now destruct (last_label w fy paths). }
  split; [exact H1|].
  intros p meta fy Hp Er Ey Hfy.
  destruct (exclusion_label meta) as [l|] eqn:El.
  - assert (Hl : label_at w fy p = Some l).
    { unfold label_at. rewrite Er, Ey, bool_decide_eq_true_2 by reflexivity. exact El. }
    split; [exact Hl|]. rewrite (H1 fy Hfy). exact (last_label_some paths fy p l Hp Hl).
  - apply in_range_bounds in Hfy.
    unfold scan_tsvs_for_company. rewrite Hg. clear Hg H1.
    generalize (@nil TSVMetadata, (∅ : gmap Z string)).
    induction paths as [|q paths IH]; intros st; [destruct Hp|].
    cbn [fold_left]. destruct Hp as [->|Hp]; [|now apply IH].
    destruct (scan_fold_keeps paths (scan_step w st p)) as [K1 _].
    apply K1. now apply scan_step_keeps_unlabelled with (fy := fy).
Qed.

End Scan.

(** X8 on a company with two filings of 2015, under IFRS and then under
    US GAAP: the year is recorded with the standard of the second. *)
Lemma scan_accounts_for_every_filing_sample :
  snd (scan_tsvs_for_company overwrite_world "E00002") !! 2015%Z = Some "US GAAP"
  /\ label_at overwrite_world 2015 "annual/E00002/S100CCCC.tsv" = Some "IFRS"
  /\ fst (scan_tsvs_for_company overwrite_world "E00002") = [].
Proof.
  destruct (scan_accounts_for_every_filing overwrite_world "E00002"
              ["annual/E00002/S100CCCC.tsv"; "annual/E00002/S100DDDD.tsv"] eq_refl)
    as [H1 H2].
  split; [rewrite H1 by (vm_compute; split; discriminate); reflexivity|].
  split; [|reflexivity].
  exact (proj1 (H2 "annual/E00002/S100CCCC.tsv" _ 2015%Z
                   ltac:(now left) eq_refl eq_refl
                   ltac:(vm_compute; split; discriminate))).
Defined.

(** ** Further properties: the company loop and the aggregation *)

Section MoreDriver.

Variable py_float : string -> option float.

Lemma select_log_length (metas : list TSVMetadata) (code : string) (fy : Z) :
  length (snd (select_best_tsv metas code fy)) = pred (length metas).
Proof.
  destruct metas as [|m1 [|m2 ms]]; [reflexivity|reflexivity|].
  destruct (Selector.select_many m1 m2 ms code fy) as (c & skipped & E & ->).
  cbn [snd]. rewrite length_map.
  pose proof (Permutation_length (Selector.sort_desc_perm (m1 :: m2 :: ms))) as L.
  rewrite E in L. cbn [length] in L |- *. lia.
Qed.

(** The duplicate entries of a fiscal year: one per filing but one. *)
Lemma year_delta_dups (w : World) (code : string) (info : CompanyInfo) (fy : Z) :
  length (duplicate_logs (fst (year_delta py_float w code info fy)))
  = pred (length (year_metas_of w code fy)).
Proof.
  unfold year_delta, process_year. rewrite year_metas_lookup.
  pose proof (select_log_length (year_metas_of w code fy) code fy) as L.
  destruct (year_metas_of w code fy) as [|m0 ms]; [reflexivity|].
  destruct (select_best_tsv (m0 :: ms) code fy) as [[chosen|] dups];
    cbn [snd] in L; [|exact L].
  destruct (escaping w (tsv_path chosen)); [exact L|].
  destruct (extract_mj_data_from_tsv py_float (read_tsv w (tsv_path chosen))
              (tsv_path chosen) chosen info) as [[mj reasons] dbg].
  destruct dbg, mj, reasons; exact L.
Qed.

(** A completed fiscal year gives one record or one missing-field entry, and
    a debug entry whenever it gives a record. *)
Lemma year_delta_counts (w : World) (code : string) (info : CompanyInfo) (fy : Z) :
  snd (year_delta py_float w code info fy) = None ->
  (length (mj_inputs (fst (year_delta py_float w code info fy)))
   + length (missing_logs (fst (year_delta py_float w code info fy))) = 1)%nat
  /\ (length (mj_inputs (fst (year_delta py_float w code info fy)))
      <= length (rec_debug_logs (fst (year_delta py_float w code info fy))) <= 1)%nat.
Proof.
  unfold year_delta, process_year. rewrite year_metas_lookup.
  destruct (year_metas_of w code fy) as [|m0 ms]; [cbn; lia|].
  pose proof (proj1 (Selector.select_none (m0 :: ms) code fy)) as Hn.
  destruct (select_best_tsv (m0 :: ms) code fy) as [[chosen|] dups].
  2: { cbn [fst] in Hn. specialize (Hn eq_refl). discriminate. }
  destruct (escaping w (tsv_path chosen)); [discriminate|].
  unfold extract_mj_data_from_tsv.
  destruct (read_tsv w (tsv_path chosen)) as [df|e]; [|cbn; lia].
  destruct (extract_from_df py_float df (tsv_path chosen) chosen info)
    as [[mj reasons] dbg].
  destruct reasons; cbn; lia.
Qed.

Lemma concat_locals_dups (l : list Locals) :
  duplicate_logs (concat_locals l) = flat_map duplicate_logs l.
Proof.
  induction l as [|a l IH]; [reflexivity|].
  cbn [concat_locals fold_right flat_map]. unfold app_locals at 1. cbn [duplicate_logs].
  f_equal. exact IH.
Qed.

Lemma concat_locals_debug (l : list Locals) :
  rec_debug_logs (concat_locals l) = flat_map rec_debug_logs l.
Proof.
  induction l as [|a l IH]; [reflexivity|].
  cbn [concat_locals fold_right flat_map]. unfold app_locals at 1. cbn [rec_debug_logs].
  f_equal. exact IH.
Qed.

Lemma list_sum_cons (a : nat) (l : list nat) : list_sum (a :: l) = (a + list_sum l)%nat.
Proof. reflexivity. Qed.

Lemma flat_map_length_sum {A B : Type} (f : A -> list B) (l : list A) :
  length (flat_map f l) = list_sum (map (fun x => length (f x)) l).
Proof.
  induction l as [|a l IH]; [reflexivity|].
  cbn [flat_map map]. now rewrite list_sum_cons, length_app, IH.
Qed.

(** The counts of a company whose processing returns, over any list of years
    whose turns complete. *)
Lemma years_counts (w : World) (code : string) (info : CompanyInfo) (years : list Z) :
  (forall fy, In fy years -> snd (year_delta py_float w code info fy) = None) ->
  let st := concat_locals (map (fun fy => fst (year_delta py_float w code info fy)) years) in
  (length (mj_inputs st) + length (missing_logs st) = length years)%nat
  /\ (length (mj_inputs st) <= length (rec_debug_logs st) <= length years)%nat.
Proof.
  intros Hnone. cbv zeta.
  rewrite concat_locals_mj, concat_locals_missing, concat_locals_debug.
  induction years as [|fy years IH]; [cbn; lia|].
  destruct IH as [I1 I2]; [intros y Hy; apply Hnone; now right|].
  destruct (year_delta_counts w code info fy (Hnone fy (or_introl eq_refl))) as [C1 C2].
  cbn [map flat_map length]. rewrite !length_app. lia.
Qed.

Lemma year_range_length : length year_range = 10%nat.
Proof. reflexivity. Qed.

(** X9.  A company whose processing returns accounts for each of the ten
    fiscal years exactly once: the complete records and the missing-field
    entries together are ten.  Every complete record has its debug entry, and
    there are at most ten debug entries. *)
Theorem company_years_accounted_once :
  forall (w : World) (code : string) (info : CompanyInfo) (st : Locals),
    process_company py_float w code info = Returned st ->
    (length (mj_inputs st) + length (missing_logs st) = 10)%nat
    /\ (length (mj_inputs st) <= length (rec_debug_logs st) <= 10)%nat.
Proof.
  intros w code info st Hret.
  apply process_company_returned in Hret as [-> Hnone].
  destruct (years_counts w code info year_range Hnone) as [H1 H2].
  rewrite year_range_length in H1, H2. split; assumption.
Qed.

(** X10.  For a fiscal year without an eligible filing the missing-field log
    has an entry with an empty path, whose reason names the accounting
    standard recorded for that year, or says that no filing was found. *)
Theorem year_without_filing_is_logged :
  forall (w : World) (code : string) (info : CompanyInfo) (st : Locals) (fy : Z),
    process_company py_float w code info = Returned st ->
    In fy year_range ->
    year_metas_of w code fy = [] ->
    In (mkMissing code (Some fy) "" (no_filing_reason w code fy)) (missing_logs st).
Proof.
  intros w code info st fy Hret Hfy Hempty.
  apply process_company_returned in Hret as [-> _].
  rewrite concat_locals_missing. apply in_flat_map.
  exists (fst (year_delta py_float w code info fy)). split.
  - apply in_map_iff. exists fy. split; [reflexivity|exact Hfy].
  - unfold year_delta, process_year, no_filing_reason.
    rewrite year_metas_lookup, Hempty. cbn. now left.
Qed.



Lemma list_sum_add {A : Type} (f g : A -> nat) (l : list A) :
  list_sum (map (fun x => f x + g x)%nat l)
  = (list_sum (map f l) + list_sum (map g l))%nat.
Proof.
  induction l as [|a l IH]; [reflexivity|]. cbn [map]. rewrite !list_sum_cons, IH. lia.
Qed.

Lemma list_sum_ext {A : Type} (f g : A -> nat) (l : list A) :
  (forall x, In x l -> f x = g x) -> list_sum (map f l) = list_sum (map g l).
Proof.
  induction l as [|a l IH]; intros H; [reflexivity|]. cbn [map].
  rewrite !list_sum_cons, (H a (or_introl eq_refl)), IH; [reflexivity|].
  intros x Hx. apply H. now right.
Qed.

Lemma list_sum_indicator {A : Type} (p : A -> bool) (l : list A) :
  list_sum (map (fun x => if p x then 1 else 0)%nat l) = length (List.filter p l).
Proof.
  induction l as [|a l IH]; [reflexivity|]. cbn [map List.filter].
  rewrite list_sum_cons, IH. destruct (p a); reflexivity.
Qed.

(** A year of the range is counted once over the loop. *)
Lemma year_counted_once (y : Z) :
  (FISCAL_YEAR_MIN <= y <= FISCAL_YEAR_MAX)%Z ->
  list_sum (map (fun fy => if (y =? fy)%Z then 1 else 0)%nat year_range) = 1%nat.
Proof.
  unfold FISCAL_YEAR_MIN, FISCAL_YEAR_MAX. intros H.
  assert (Hy : (y = 2015 \/ y = 2016 \/ y = 2017 \/ y = 2018 \/ y = 2019 \/ y = 2020
                \/ y = 2021 \/ y = 2022 \/ y = 2023 \/ y = 2024)%Z) by lia.
  repeat (destruct Hy as [->|Hy]; [reflexivity|]). subst. reflexivity.
Qed.

(** Filings with a fiscal year of the range are split by the years of the
    loop. *)
Lemma filings_split_by_year (metas : list TSVMetadata) :
  (forall m, In m metas -> eligible m) ->
  length metas
  = list_sum (map (fun fy =>
                     length (List.filter
                               (fun m => match meta_fiscal_year m with
                                         | Some y => (y =? fy)%Z
                                         | None => false
                                         end) metas))
                  year_range).
Proof.
  induction metas as [|m metas IH]; intros H.
  - cbn [List.filter length]. reflexivity.
  - destruct (H m (or_introl eq_refl)) as ((y & Ey & Hy) & _).
    transitivity
      (list_sum (map (fun fy => (if (y =? fy)%Z then 1 else 0)
                                + length (List.filter
                                            (fun m => match meta_fiscal_year m with
                                                      | Some y => (y =? fy)%Z
                                                      | None => false
                                                      end) metas))%nat year_range)).
    + rewrite list_sum_add, (year_counted_once y Hy), <- IH; [reflexivity|].
      intros m' Hm'. apply H. now right.
    + apply list_sum_ext. intros fy _. cbn [List.filter]. rewrite Ey.
      destruct (y =? fy)%Z; reflexivity.
Qed.

(** X12.  For a company whose processing returns, every filing kept by the
    scan is the selected filing of its fiscal year or has one entry in the
    duplicate log: the kept filings are as many as the duplicate entries plus
    the fiscal years that have a filing. *)
Theorem every_filing_selected_or_logged :
  forall (w : World) (code : string) (info : CompanyInfo) (st : Locals),
    process_company py_float w code info = Returned st ->
    length (fst (scan_tsvs_for_company w code))
    = (length (duplicate_logs st)
       + length (List.filter (has_filing w code) year_range))%nat.
Proof.
  intros w code info st Hret.
  apply process_company_returned in Hret as [-> _].
  rewrite concat_locals_dups, flat_map_length_sum, map_map.
  rewrite <- list_sum_indicator, <- list_sum_add.
  rewrite (filings_split_by_year (fst (scan_tsvs_for_company w code))).
  - apply list_sum_ext. intros fy _.
    rewrite year_delta_dups. unfold has_filing.
    change (List.filter _ (fst (scan_tsvs_for_company w code)))
      with (year_metas_of w code fy).
    destruct (year_metas_of w code fy); cbn [length pred]; lia.
  - intros m Hm. now apply (kept_filing_is_eligible w code).
Qed.

End MoreDriver.

Section MoreMain.

Variable py_float : string -> option float.

(** The aggregation appends, company by company, what each one contributes. *)
Lemma collect_fold (w : World) (cs : list CompanyInfo) :
  forall agg,
    fold_left (collect py_float w) cs agg
    = mkAggregate
        (all_mj_inputs agg
         ++ flat_map (fun c => mj_inputs (contribution py_float w c)) cs)%list
        (all_missing_logs agg
         ++ flat_map (fun c => missing_logs (contribution py_float w c)) cs)%list
        (all_duplicate_logs agg
         ++ flat_map (fun c => duplicate_logs (contribution py_float w c)) cs)%list
        (all_rec_debug_logs agg
         ++ flat_map (fun c => rec_debug_logs (contribution py_float w c)) cs)%list
        (warnings agg ++ flat_map (warning_of py_float w) cs)%list.
Proof.
  induction cs as [|c cs IH]; intros agg; cbn [fold_left flat_map].
  - destruct agg. cbn. now rewrite !app_nil_r.
  - rewrite IH. unfold collect, contribution, warning_of.
    destruct (process_one py_float w c) as [st|e]; cbn;
      now rewrite <- ?app_assoc, ?app_nil_r.
Qed.

Lemma warnings_count (w : World) (cs : list CompanyInfo) :
  length (flat_map (warning_of py_float w) cs)
  = length (List.filter (failed py_float w) cs).
Proof.
  induction cs as [|c cs IH]; [reflexivity|].
  cbn [flat_map List.filter]. rewrite length_app, IH. unfold warning_of, failed.
  destruct (process_one py_float w c); reflexivity.
Qed.

(** X14.  The aggregated records and logs are the lists of the companies
    whose processing returned, appended in the order in which the companies
    complete; a company that raised adds nothing but one warning, so the
    warnings are as many as the companies that raised. *)
Theorem main_appends_contributions :
  forall (w : World) (completed : list CompanyInfo),
    all_mj_inputs (main py_float w completed)
    = flat_map (fun c => mj_inputs (contribution py_float w c)) completed
    /\ all_missing_logs (main py_float w completed)
       = flat_map (fun c => missing_logs (contribution py_float w c)) completed
    /\ all_duplicate_logs (main py_float w completed)
       = flat_map (fun c => duplicate_logs (contribution py_float w c)) completed
    /\ all_rec_debug_logs (main py_float w completed)
       = flat_map (fun c => rec_debug_logs (contribution py_float w c)) completed
    /\ warnings (main py_float w completed)
       = flat_map (warning_of py_float w) completed
    /\ length (warnings (main py_float w completed))
       = length (List.filter (failed py_float w) completed).
Proof.
  intros w completed. unfold main. rewrite collect_fold. cbn.
  repeat (split; [reflexivity|]). apply warnings_count.
Qed.

(** X13.  The order in which the companies complete changes the aggregated
    records, logs and warnings only by a rearrangement. *)
Theorem main_completion_order_irrelevant :
  forall (w : World) (completed completed' : list CompanyInfo),
    Permutation completed completed' ->
    Permutation (all_mj_inputs (main py_float w completed))
                (all_mj_inputs (main py_float w completed'))
    /\ Permutation (all_missing_logs (main py_float w completed))
                   (all_missing_logs (main py_float w completed'))
    /\ Permutation (all_duplicate_logs (main py_float w completed))
                   (all_duplicate_logs (main py_float w completed'))
    /\ Permutation (all_rec_debug_logs (main py_float w completed))
                   (all_rec_debug_logs (main py_float w completed'))
    /\ Permutation (warnings (main py_float w completed))
                   (warnings (main py_float w completed')).
Proof.
  intros w completed completed' P. unfold main. rewrite !collect_fold. cbn.
  repeat split; apply Permutation_flat_map; exact P.
Qed.

Lemma contribution_counts (w : World) (c : CompanyInfo) :
  (length (mj_inputs (contribution py_float w c))
   + length (missing_logs (contribution py_float w c))
   + (if failed py_float w c then 10 else 0) = 10)%nat.
Proof.
  unfold contribution, failed, process_one.
  destruct (process_company py_float w (ci_edinet_code c) c) as [st|e] eqn:E.
  - apply process_company_returned in E as [-> Hnone].
    destruct (years_counts py_float w (ci_edinet_code c) c year_range Hnone) as [H _].
    rewrite year_range_length in H. lia.
  - reflexivity.
Qed.

(** X15.  Over a whole run, every company either raised or accounts for ten
    company-years: the aggregated records and missing-field entries, plus ten
    for each company that raised, are ten times the number of companies. *)
Theorem run_accounts_for_every_company_year :
  forall (w : World) (completed : list CompanyInfo),
    (length (all_mj_inputs (main py_float w completed))
     + length (all_missing_logs (main py_float w completed))
     + 10 * length (List.filter (failed py_float w) completed)
     = 10 * length completed)%nat.
Proof.
  intros w completed. unfold main. rewrite collect_fold. cbn [all_mj_inputs all_missing_logs no_results app].
  induction completed as [|c cs IH]; [reflexivity|].
  cbn [flat_map List.filter length]. rewrite !length_app.
  pose proof (contribution_counts w c) as Hc.
  destruct (failed py_float w c); cbn [length]; lia.
Qed.

End MoreMain.

(** X13 on the sample company and a company without a directory, in both
    orders. *)
Lemma main_completion_order_irrelevant_sample :
  Permutation
    (all_missing_logs (main decimal_float sound_world [sample_company; absent_company]))
    (all_missing_logs (main decimal_float sound_world [absent_company; sample_company])).
Proof.
  destruct (main_completion_order_irrelevant decimal_float sound_world
              [sample_company; absent_company] [absent_company; sample_company]
              (perm_swap _ _ _)) as (_ & H & _).
  exact H.
Defined.

(** X9 on the sample company. *)
Lemma company_years_accounted_once_sample :
  exists st,
    process_company decimal_float sound_world "E00001" sample_company = Returned st
    /\ (length (mj_inputs st) + length (missing_logs st) = 10)%nat.
Proof.
  pose proof (company_years_accounted_once decimal_float sound_world "E00001"
                sample_company) as H.
  destruct (process_company decimal_float sound_world "E00001" sample_company)
    as [st|e] eqn:E; [|vm_compute in E; discriminate].
  exists st. split; [reflexivity|]. exact (proj1 (H st eq_refl)).
Defined.

(** X10 on the year 2017 of the sample company, for which it has no filing. *)
Lemma year_without_filing_is_logged_sample :
  exists st,
    process_company decimal_float sound_world "E00001" sample_company = Returned st
    /\ In (mkMissing "E00001" (Some 2017%Z) ""
             (no_filing_reason sound_world "E00001" 2017))
          (missing_logs st).
Proof.
  pose proof (year_without_filing_is_logged decimal_float sound_world "E00001"
                sample_company) as H.
  destruct (process_company decimal_float sound_world "E00001" sample_company)
    as [st|e] eqn:E; [|vm_compute in E; discriminate].
  exists st. split; [reflexivity|]. apply (H st 2017%Z eq_refl).
  - vm_compute. tauto.
  - vm_compute. reflexivity.
Defined.


(** X12 on the sample company: two filings, two years with a filing, no
    duplicate. *)
Lemma every_filing_selected_or_logged_sample :
  exists st,
    process_company decimal_float sound_world "E00001" sample_company = Returned st
    /\ length (fst (scan_tsvs_for_company sound_world "E00001"))
       = (length (duplicate_logs st)
          + length (List.filter (has_filing sound_world "E00001") year_range))%nat.
Proof.
  pose proof (every_filing_selected_or_logged decimal_float sound_world "E00001"
                sample_company) as H.
  destruct (process_company decimal_float sound_world "E00001" sample_company)
    as [st|e] eqn:E; [|vm_compute in E; discriminate].
  exists st. split; [reflexivity|]. exact (H st eq_refl).
Defined.

(** ** Rows with a null context *)

Section NullContext.

Variable py_float : string -> option float.

Lemma null_context_filtered (rows : list Row) :
  (forall r, In r rows -> context_id r = None) ->
  List.filter not_segment rows = [].
Proof.
  induction rows as [|r rows IH]; [reflexivity|]. intros H.
  cbn [List.filter]. unfold not_segment at 1. rewrite (H r) by now left.
  cbn. apply IH. intros r' Hr'. apply H. now right.
Qed.

(** C2.  The row of a fact whose context cell is null is dropped by the
    segment filter of the polars resolvers although it has no member marker:
    over a table whose contexts are all null both resolvers answer absent for
    every candidate list, whatever the rows hold, while the filter of the
    pandas variants keeps every such row. *)
Theorem null_context_rows_are_dropped :
  forall (df : DataFrame) (ids : list string) (rel pt cons prefix : string),
    (forall r, In r df -> context_id r = None) ->
    _extract_value_polars_with_eid py_float df ids rel pt cons prefix = (None, None)
    /\ _extract_value_polars py_float df ids rel pt cons prefix = None
    /\ (forall r, In r df -> not_segment r = false /\ not_segment_pandas r = true).
Proof.
  intros df ids rel pt cons prefix H.
  assert (F : forall full, List.filter not_segment
                             (List.filter (matches full rel pt cons) df) = []).
  { intros full. apply null_context_filtered. intros r Hr.
    apply filter_In in Hr as [Hr _]. now apply H. }
  split; [|split].
  - induction ids as [|elem rest IH]; [reflexivity|].
    cbn [_extract_value_polars_with_eid]. rewrite F. exact IH.
  - induction ids as [|elem rest IH]; [reflexivity|].
    cbn [_extract_value_polars]. rewrite F. exact IH.
  - intros r Hr. unfold not_segment, not_segment_pandas. rewrite (H r Hr).
    split; reflexivity.
Qed.

End NullContext.

(** C2 on the table of one net-sales fact with a null context: the row
    matches the first candidate tag, the period, the period kind and the
    scope, carries no member marker and normalizes to 1000, and the resolver
    answers absent. *)
Lemma null_context_rows_are_dropped_sample :
  matches (JPPFS ++ "NetSales") CUR DURATION CONSOLIDATED null_context_row = true
  /\ context_id null_context_row = None
  /\ normalize_value decimal_float (value null_context_row) (unit null_context_row)
     = Some 1000%float
  /\ extract_value_with_fallback_and_eid decimal_float null_context_df
       ELEMENT_NET_SALES CUR DURATION CONSOLIDATED = (None, None)
  /\ extract_value_with_fallback decimal_float null_context_df
       ELEMENT_NET_SALES CUR DURATION CONSOLIDATED = None
  /\ not_segment null_context_row = false
  /\ not_segment_pandas null_context_row = true.
Proof.
  destruct (null_context_rows_are_dropped decimal_float null_context_df
              ELEMENT_NET_SALES CUR DURATION CONSOLIDATED JPPFS)
    as (H1 & H2 & H3).
  { intros r [<-|[]]. reflexivity. }
  split; [reflexivity|]. split; [reflexivity|]. split; [vm_compute; reflexivity|].
  split; [exact H1|]. split; [exact H2|]. apply H3. now left.
Defined.

(** ** The complete-case output of a run *)

Section CompleteCase.

Variable py_float : string -> option float.







End CompleteCase.


